(** * LLM content validator ([ML/app.py]): response normalisation pipeline

    A shallow embedding of [app.py]:
    - [extract_text_from_response]     (response text extractor),
    - [clean_model_text_and_extract_json] (JSON recovery),
    - [guess_mime_from_url],
    - [build_prompt] and the loading of the tags file,
    - [validate], with the image download and the SDK as an environment,
      and [get_tags].

    Python values are modelled as they are at run time: a [str] is a
    sequence of Unicode code points, a [dict] is an insertion-ordered
    association list with unique keys, exceptions are explicit results. *)

From Stdlib Require Import NArith ZArith List String Ascii Bool Lia.
From Stdlib Require Import SpecFloat.
Import ListNotations.

Local Open Scope N_scope.
Local Open Scope list_scope.

(* ================================================================== *)
(** * Python text *)
(* ================================================================== *)

(** A code point; a Python 3 [str] is a finite sequence of them. *)
Abbreviation char := N (only parsing).
Abbreviation str := (list N).

Definition ord (a : ascii) : char := N_of_ascii a.

(** [lit "abc"] is the [str] with the code points of an ASCII literal. *)
Fixpoint lit (s : string) : str :=
  match s with
  | EmptyString => []
  | String a r => ord a :: lit r
  end.

(** Texts that contain the double quote character (code point 34) are
    written with an apostrophe (code point 39) in its place:
    [qlit "{'a': 1}"] is the text [{"a": 1}]. *)
Definition qlit (s : string) : str :=
  map (fun c => if c =? 39 then 34 else c) (lit s).

Fixpoint str_eqb (a b : str) : bool :=
  match a, b with
  | [], [] => true
  | x :: a', y :: b' => (x =? y) && str_eqb a' b'
  | _, _ => false
  end.

(** [t in l] for a list of strings. *)
Definition str_in (t : str) (l : list str) : bool := existsb (str_eqb t) l.

(** [s.startswith(p)] *)
Fixpoint startswith (s p : str) {struct p} : bool :=
  match p with
  | [] => true
  | c :: p' => match s with
               | [] => false
               | d :: s' => (d =? c) && startswith s' p'
               end
  end.

(** [s.endswith(p)] *)
Definition endswith (s p : str) : bool := startswith (rev s) (rev p).

(** [p in s]: [p] occurs in [s] as a contiguous substring. *)
Fixpoint contains (s p : str) : bool :=
  startswith s p ||
  match s with
  | [] => false
  | _ :: s' => contains s' p
  end.

(** [s[:n]] *)
Definition prefix_slice (n : nat) (s : str) : str := firstn n s.

(** [s[1:-1]] *)
Definition slice_1_m1 (s : str) : str := removelast (tl s).

(** [str.isspace] on one code point ([Py_UNICODE_ISSPACE]); also the
    class [\s] of [re] on text patterns. *)
Definition isspace (c : char) : bool :=
  ((9 <=? c) && (c <=? 13)) || ((28 <=? c) && (c <=? 32)) ||
  (c =? 133) || (c =? 160) || (c =? 5760) ||
  ((8192 <=? c) && (c <=? 8202)) ||
  (c =? 8232) || (c =? 8233) || (c =? 8239) || (c =? 8287) || (c =? 12288).

Fixpoint lstrip (s : str) : str :=
  match s with
  | c :: s' => if isspace c then lstrip s' else s
  | [] => []
  end.

Definition rstrip (s : str) : str := rev (lstrip (rev s)).

(** [s.strip()] *)
Definition strip (s : str) : str := rstrip (lstrip s).

(* ================================================================== *)
(** * Values produced by [json.loads] *)
(* ================================================================== *)

(** Floats are IEEE-754 binary64 numbers, as specified by [SpecFloat]. *)
Definition prec : Z := 53.
Definition emax : Z := 1024.

#[warnings="-register-all"]
Inductive value : Type :=
| VNone
| VBool (b : bool)
| VInt (z : Z)
| VFloat (f : spec_float)
| VStr (s : str)
| VList (l : list value)
| VDict (d : list (str * value)).

Definition dict := list (str * value).

(** [d.get(k)] as an option, [d.get(k, default)], and [d[k] = v]. *)
Fixpoint dict_lookup (d : dict) (k : str) : option value :=
  match d with
  | [] => None
  | (k', v) :: d' => if str_eqb k k' then Some v else dict_lookup d' k
  end.

Definition dict_get (d : dict) (k : str) (default : value) : value :=
  match dict_lookup d k with
  | Some v => v
  | None => default
  end.

Fixpoint dict_set (d : dict) (k : str) (v : value) : dict :=
  match d with
  | [] => [(k, v)]
  | (k', v') :: d' =>
      if str_eqb k k' then (k', v) :: d' else (k', v') :: dict_set d' k v
  end.

Definition isinstance_dict (v : value) : bool :=
  match v with VDict _ => true | _ => false end.

Definition isinstance_list (v : value) : bool :=
  match v with VList _ => true | _ => false end.

Definition isinstance_str (v : value) : bool :=
  match v with VStr _ => true | _ => false end.

(** [bool(v)]: Python truthiness. *)
Definition py_bool (v : value) : bool :=
  match v with
  | VNone => false
  | VBool b => b
  | VInt z => negb (Z.eqb z 0)
  | VFloat f => match f with S754_zero _ => false | _ => true end
  | VStr s => match s with [] => false | _ => true end
  | VList l => match l with [] => false | _ => true end
  | VDict d => match d with [] => false | _ => true end
  end.

(* ================================================================== *)
(** * [json.loads]

    The decoder of the interpreter's [json] package with its default
    settings (strict strings, no hooks), following its scanner:
    [scan_once] dispatches on the next character, [object_items] and
    [array_items] are the loops of the object and array readers.  The
    [fuel] argument only bounds the recursion; [json_loads] supplies more
    than any input of its length can use ([json_loads_fuel] below).
    Failures are not told apart: every [JSONDecodeError] is [None].  The
    interpreter's own limits (recursion depth, length of integer
    literals) are not modelled. *)
(* ================================================================== *)

Definition is_json_ws (c : char) : bool :=
  (c =? 32) || (c =? 9) || (c =? 10) || (c =? 13).

Fixpoint skip_ws (s : str) : str :=
  match s with
  | c :: s' => if is_json_ws c then skip_ws s' else s
  | [] => []
  end.

Definition is_digit (c : char) : bool := (48 <=? c) && (c <=? 57).

Definition hex_digit (c : char) : option N :=
  if (48 <=? c) && (c <=? 57) then Some (c - 48)
  else if (97 <=? c) && (c <=? 102) then Some (c - 87)
  else if (65 <=? c) && (c <=? 70) then Some (c - 55)
  else None.

Definition hex4 (a b c d : char) : option N :=
  match hex_digit a, hex_digit b, hex_digit c, hex_digit d with
  | Some x, Some y, Some z, Some w => Some (((x * 16 + y) * 16 + z) * 16 + w)
  | _, _, _, _ => None
  end.

Definition is_high_surrogate (c : N) : bool := (55296 <=? c) && (c <=? 56319).
Definition is_low_surrogate (c : N) : bool := (56320 <=? c) && (c <=? 57343).
Definition join_surrogates (hi lo : N) : N :=
  65536 + (hi - 55296) * 1024 + (lo - 56320).

(** The one-letter escapes of a JSON string. *)
Definition json_escape (c : char) : option char :=
  if (c =? 34) || (c =? 92) || (c =? 47) then Some c
  else if c =? 98 then Some 8
  else if c =? 102 then Some 12
  else if c =? 110 then Some 10
  else if c =? 114 then Some 13
  else if c =? 116 then Some 9
  else None.

(** [scanstring]: the text after an opening quote, up to the closing one. *)
Fixpoint scanstring (s : str) (acc : str) {struct s} : option (str * str) :=
  match s with
  | [] => None
  | c :: t =>
      if c =? 34 then Some (rev acc, t)
      else if c =? 92 then
        match t with
        | [] => None
        | e :: t1 =>
            if e =? 117 then
              match t1 with
              | h1 :: h2 :: h3 :: h4 :: t2 =>
                  match hex4 h1 h2 h3 h4 with
                  | None => None
                  | Some u =>
                      if is_high_surrogate u then
                        match t2 with
                        | b :: u' :: g1 :: g2 :: g3 :: g4 :: ((_ :: _) as t3) =>
                            if (b =? 92) && (u' =? 117) then
                              match hex4 g1 g2 g3 g4 with
                              | None => None
                              | Some u2 =>
                                  if is_low_surrogate u2
                                  then scanstring t3 (join_surrogates u u2 :: acc)
                                  else scanstring t2 (u :: acc)
                              end
                            else scanstring t2 (u :: acc)
                        | _ => scanstring t2 (u :: acc)
                        end
                      else scanstring t2 (u :: acc)
                  end
              | _ => None
              end
            else
              match json_escape e with
              | Some x => scanstring t1 (x :: acc)
              | None => None
              end
        end
      else if c <=? 31 then None
      else scanstring t (c :: acc)
  end.

Fixpoint span_digits (s : str) : str * str :=
  match s with
  | c :: s' =>
      if is_digit c then let (ds, r) := span_digits s' in (c :: ds, r)
      else ([], s)
  | [] => ([], [])
  end.

Definition digits_value (ds : str) : Z :=
  fold_left (fun acc c => (acc * 10 + Z.of_N (c - 48))%Z) ds 0%Z.

(** [float(text)] for the decimal text [m * 10^e] with sign [neg]:
    the nearest binary64 number, ties to even. *)
Definition float_of_decimal (neg : bool) (m e : Z) : spec_float :=
  match m with
  | Zpos p =>
      match e with
      | Zneg k =>
          SFdiv prec emax (S754_finite neg p 0)
                (S754_finite false (Pos.pow 10 k) 0)
      | _ => binary_round prec emax neg (p * Z.to_pos (10 ^ e)) 0
      end
  | _ => S754_zero neg
  end.

(** The number pattern: an optional minus sign, [0] or a digit string
    without leading zero, an optional fraction (a dot and digits), an
    optional exponent ([e] or [E], an optional sign, digits). *)
Definition match_number (s : str) : option (value * str) :=
  let (neg, s1) :=
    match s with
    | c :: t => if c =? 45 then (true, t) else (false, s)
    | [] => (false, s)
    end in
  let int_part :=
    match s1 with
    | c :: t =>
        if (49 <=? c) && (c <=? 57)
        then let (ds, r) := span_digits t in Some (c :: ds, r)
        else if c =? 48 then Some ([c], t)
        else None
    | [] => None
    end in
  match int_part with
  | None => None
  | Some (idigits, r1) =>
      let (frac, r2) :=
        match r1 with
        | dot :: d :: t =>
            if (dot =? 46) && is_digit d
            then let (ds, r) := span_digits t in (Some (d :: ds), r)
            else (None, r1)
        | _ => (None, r1)
        end in
      let (exp, r3) :=
        match r2 with
        | e :: t =>
            if (e =? 101) || (e =? 69) then
              let (eneg, t') :=
                match t with
                | sg :: t0 =>
                    if sg =? 45 then (true, t0)
                    else if sg =? 43 then (false, t0)
                    else (false, t)
                | [] => (false, t)
                end in
              match span_digits t' with
              | ([], _) => (None, r2)
              | (ds, r) =>
                  (Some (if eneg then (- digits_value ds)%Z else digits_value ds), r)
              end
            else (None, r2)
        | [] => (None, r2)
        end in
      match frac, exp with
      | None, None =>
          let z := digits_value idigits in
          Some (VInt (if neg then (- z)%Z else z), r3)
      | _, _ =>
          let fd := match frac with Some ds => ds | None => [] end in
          let ex := match exp with Some z => z | None => 0%Z end in
          Some (VFloat (float_of_decimal neg (digits_value (idigits ++ fd)%list)
                                         (ex - Z.of_nat (List.length fd))), r3)
      end
  end.

Inductive scan_result : Type :=
| Scanned (v : value) (rest : str)
| ScanError
| OutOfFuel.

Fixpoint scan_once (fuel : nat) (s : str) {struct fuel} : scan_result :=
  match fuel with
  | O => OutOfFuel
  | S fuel' =>
      match s with
      | [] => ScanError
      | c :: t =>
          if c =? 34 then
            match scanstring t [] with
            | Some (x, r) => Scanned (VStr x) r
            | None => ScanError
            end
          else if c =? 123 then
            match skip_ws t with
            | c' :: r =>
                if c' =? 125 then Scanned (VDict []) r
                else object_items fuel' [] (skip_ws t)
            | [] => ScanError
            end
          else if c =? 91 then
            match skip_ws t with
            | c' :: r =>
                if c' =? 93 then Scanned (VList []) r
                else array_items fuel' [] (skip_ws t)
            | [] => ScanError
            end
          else if startswith s (lit "null") then Scanned VNone (skipn 4 s)
          else if startswith s (lit "true") then Scanned (VBool true) (skipn 4 s)
          else if startswith s (lit "false") then Scanned (VBool false) (skipn 5 s)
          else if startswith s (lit "NaN") then Scanned (VFloat S754_nan) (skipn 3 s)
          else if startswith s (lit "Infinity")
               then Scanned (VFloat (S754_infinity false)) (skipn 8 s)
          else if startswith s (lit "-Infinity")
               then Scanned (VFloat (S754_infinity true)) (skipn 9 s)
          else
            match match_number s with
            | Some (v, r) => Scanned v r
            | None => ScanError
            end
      end
  end

with object_items (fuel : nat) (acc : dict) (s : str) {struct fuel} : scan_result :=
  match fuel with
  | O => OutOfFuel
  | S fuel' =>
      match s with
      | c :: t =>
          if c =? 34 then
            match scanstring t [] with
            | None => ScanError
            | Some (key, r) =>
                match skip_ws r with
                | c2 :: r2 =>
                    if c2 =? 58 then
                      match scan_once fuel' (skip_ws r2) with
                      | Scanned v r3 =>
                          let acc' := dict_set acc key v in
                          match skip_ws r3 with
                          | c3 :: r4 =>
                              if c3 =? 125 then Scanned (VDict acc') r4
                              else if c3 =? 44
                                   then object_items fuel' acc' (skip_ws r4)
                                   else ScanError
                          | [] => ScanError
                          end
                      | e => e
                      end
                    else ScanError
                | [] => ScanError
                end
            end
          else ScanError
      | [] => ScanError
      end
  end

with array_items (fuel : nat) (acc : list value) (s : str) {struct fuel} : scan_result :=
  match fuel with
  | O => OutOfFuel
  | S fuel' =>
      match scan_once fuel' s with
      | Scanned v r =>
          match skip_ws r with
          | c :: r' =>
              if c =? 93 then Scanned (VList (rev (v :: acc))) r'
              else if c =? 44 then array_items fuel' (v :: acc) (skip_ws r')
              else ScanError
          | [] => ScanError
          end
      | e => e
      end
  end.

(** [json.loads(s)] for a [str] argument. *)
Definition json_loads (s : str) : option value :=
  if startswith s [65279] then None
  else
    match scan_once (S (2 * List.length s)) (skip_ws s) with
    | Scanned v r =>
        match skip_ws r with
        | [] => Some v
        | _ => None
        end
    | _ => None
    end.

(* ================================================================== *)
(** * Codecs: [s.encode('utf-8').decode('unicode_escape')] *)
(* ================================================================== *)

Abbreviation bytes := (list N) (only parsing).

Definition is_surrogate (c : N) : bool := (55296 <=? c) && (c <=? 57343).

(** UTF-8 of one code point; surrogates cannot be encoded. *)
Definition utf8_char (c : char) : option bytes :=
  if c <? 128 then Some [c]
  else if c <? 2048 then Some [192 + c / 64; 128 + c mod 64]
  else if is_surrogate c then None
  else if c <? 65536 then
    Some [224 + c / 4096; 128 + (c / 64) mod 64; 128 + c mod 64]
  else if c <? 1114112 then
    Some [240 + c / 262144; 128 + (c / 4096) mod 64;
          128 + (c / 64) mod 64; 128 + c mod 64]
  else None.

Fixpoint utf8_encode (s : str) : option bytes :=
  match s with
  | [] => Some []
  | c :: s' =>
      match utf8_char c, utf8_encode s' with
      | Some b, Some bs => Some (b ++ bs)
      | _, _ => None
      end
  end.

Definition is_octal (c : N) : bool := (48 <=? c) && (c <=? 55).

Fixpoint hex_value (ds : list N) (acc : N) : option N :=
  match ds with
  | [] => Some acc
  | d :: ds' =>
      match hex_digit d with
      | Some x => hex_value ds' (acc * 16 + x)
      | None => None
      end
  end.

Section UnicodeEscape.

(** The character-name table of the interpreter's [unicodedata] module
    (behind the escape [\N{name}]); it is not part of the repository. *)
Variable unicodedata_getcode : bytes -> option char.

(** The [unicode_escape] decoder with strict error handling; [None] is
    [UnicodeDecodeError].  [name] is [Some acc] while the decoder is
    inside the braces of a [\N{...}] escape. *)
Fixpoint unicode_escape_decode (name : option bytes) (b : bytes) (out : str)
  {struct b} : option str :=
  match name with
  | Some acc =>
      match b with
      | [] => None
      | c :: t =>
          if c =? 125 then
            match acc with
            | [] => None
            | _ =>
                match unicodedata_getcode (rev acc) with
                | Some ch => unicode_escape_decode None t (ch :: out)
                | None => None
                end
            end
          else unicode_escape_decode (Some (c :: acc)) t out
      end
  | None =>
      match b with
      | [] => Some (rev out)
      | c :: t =>
          if negb (c =? 92) then unicode_escape_decode None t (c :: out)
          else
            match t with
            | [] => None
            | e :: t1 =>
                if e =? 10 then unicode_escape_decode None t1 out
                else if (e =? 92) || (e =? 39) || (e =? 34)
                     then unicode_escape_decode None t1 (e :: out)
                else if e =? 98 then unicode_escape_decode None t1 (8 :: out)
                else if e =? 102 then unicode_escape_decode None t1 (12 :: out)
                else if e =? 116 then unicode_escape_decode None t1 (9 :: out)
                else if e =? 110 then unicode_escape_decode None t1 (10 :: out)
                else if e =? 114 then unicode_escape_decode None t1 (13 :: out)
                else if e =? 118 then unicode_escape_decode None t1 (11 :: out)
                else if e =? 97 then unicode_escape_decode None t1 (7 :: out)
                else if is_octal e then
                  match t1 with
                  | o2 :: t2 =>
                      if is_octal o2 then
                        match t2 with
                        | o3 :: t3 =>
                            if is_octal o3
                            then unicode_escape_decode None t3
                                   (((e - 48) * 8 + (o2 - 48)) * 8 + (o3 - 48) :: out)
                            else unicode_escape_decode None t2
                                   ((e - 48) * 8 + (o2 - 48) :: out)
                        | [] => unicode_escape_decode None t2
                                  ((e - 48) * 8 + (o2 - 48) :: out)
                        end
                      else unicode_escape_decode None t1 (e - 48 :: out)
                  | [] => unicode_escape_decode None t1 (e - 48 :: out)
                  end
                else if e =? 120 then
                  match t1 with
                  | h1 :: h2 :: t2 =>
                      match hex_value [h1; h2] 0 with
                      | Some ch => unicode_escape_decode None t2 (ch :: out)
                      | None => None
                      end
                  | _ => None
                  end
                else if e =? 117 then
                  match t1 with
                  | h1 :: h2 :: h3 :: h4 :: t2 =>
                      match hex_value [h1; h2; h3; h4] 0 with
                      | Some ch => unicode_escape_decode None t2 (ch :: out)
                      | None => None
                      end
                  | _ => None
                  end
                else if e =? 85 then
                  match t1 with
                  | h1 :: h2 :: h3 :: h4 :: h5 :: h6 :: h7 :: h8 :: t2 =>
                      match hex_value [h1; h2; h3; h4; h5; h6; h7; h8] 0 with
                      | Some ch =>
                          if ch <=? 1114111
                          then unicode_escape_decode None t2 (ch :: out)
                          else None
                      | None => None
                      end
                  | _ => None
                  end
                else if e =? 78 then
                  match t1 with
                  | c2 :: t2 =>
                      if c2 =? 123 then unicode_escape_decode (Some []) t2 out
                      else None
                  | [] => None
                  end
                else unicode_escape_decode None t1 (e :: 92 :: out)
            end
      end
  end.

(** [s.encode('utf-8').decode('unicode_escape')]; [None] when either
    step raises. *)
Definition unescape (s : str) : option str :=
  match utf8_encode s with
  | Some b => unicode_escape_decode None b []
  | None => None
  end.

End UnicodeEscape.

(* ================================================================== *)
(** * Regular expressions

    The fragment of [re] that the two patterns of [app.py] use, with the
    matcher's own strategy: alternatives are tried in priority order
    (greedy: longest first, lazy: shortest first), backtracking into the
    continuation [k]; [re_search] tries the start positions from the
    left and gives group 1 of the first match. *)
(* ================================================================== *)

Inductive regex : Type :=
| Class (p : char -> bool)
| Seq (a b : regex)
| Opt (a : regex)
| Star (p : char -> bool)
| LazyStar (p : char -> bool)
| Group (a : regex).

Fixpoint star_greedy {A} (p : char -> bool) (s : str) (k : str -> option A)
  : option A :=
  match s with
  | c :: t =>
      if p c then
        match star_greedy p t k with
        | Some x => Some x
        | None => k s
        end
      else k s
  | [] => k s
  end.

Fixpoint star_lazy {A} (p : char -> bool) (s : str) (k : str -> option A)
  : option A :=
  match k s with
  | Some x => Some x
  | None =>
      match s with
      | c :: t => if p c then star_lazy p t k else None
      | [] => None
      end
  end.

(** [rmatch r s cap k]: match [r] at the head of [s], then continue with
    [k] on the remaining text and the capture of group 1. *)
Fixpoint rmatch {A} (r : regex) (s : str) (cap : option str)
  (k : str -> option str -> option A) : option A :=
  match r with
  | Class p =>
      match s with
      | c :: t => if p c then k t cap else None
      | [] => None
      end
  | Seq a b => rmatch a s cap (fun s' cap' => rmatch b s' cap' k)
  | Opt a =>
      match rmatch a s cap k with
      | Some x => Some x
      | None => k s cap
      end
  | Star p => star_greedy p s (fun s' => k s' cap)
  | LazyStar p => star_lazy p s (fun s' => k s' cap)
  | Group a =>
      rmatch a s cap
        (fun s' _ => k s' (Some (firstn (List.length s - List.length s') s)))
  end.

Definition group1 (cap : option str) : str :=
  match cap with Some g => g | None => [] end.

(** [re.search(r, s)]: [Some g] with [g] the text of group 1, or [None]. *)
Fixpoint re_search (r : regex) (s : str) : option str :=
  match rmatch r s None (fun _ cap => Some (group1 cap)) with
  | Some g => Some g
  | None =>
      match s with
      | _ :: t => re_search r t
      | [] => None
      end
  end.

Definition chr_is (c : char) : char -> bool := fun x => x =? c.
Definition any_char : char -> bool := fun _ => true.

(** A literal letter under [re.IGNORECASE]: both cases, and the long s
    (U+017F) for the letter s. *)
Definition chr_ignorecase (lower upper : char) : char -> bool :=
  fun x => (x =? lower) || (x =? upper) ||
           ((lower =? 115) && (x =? 383)).

Definition backticks : regex :=
  Seq (Class (chr_is 96)) (Seq (Class (chr_is 96)) (Class (chr_is 96))).

(** Line 208: three backticks, an optional [json] tag, [\s*], group 1
    [[\s\S]*?], [\s*], three backticks; case-insensitive. *)
Definition fence_pattern : regex :=
  Seq backticks
   (Seq (Opt (Seq (Class (chr_ignorecase 106 74))
             (Seq (Class (chr_ignorecase 115 83))
             (Seq (Class (chr_ignorecase 111 79))
                  (Class (chr_ignorecase 110 78))))))
   (Seq (Star isspace)
   (Seq (Group (LazyStar any_char))
   (Seq (Star isspace) backticks)))).

(** Line 232: group 1 is an opening brace, [[\s\S]*?], a closing brace. *)
Definition brace_pattern : regex :=
  Group (Seq (Class (chr_is 123)) (Seq (LazyStar any_char) (Class (chr_is 125)))).

(* ================================================================== *)
(** * [validate]: tag normalisation and decision sanitising *)
(* ================================================================== *)

Definition DEFAULT_TAGS : list str :=
  map lit
    ["Wifi"; "Network"; "Cleanliness"; "Plumbing"; "Electrical"; "Lighting";
     "Safety"; "Security"; "Maintenance"; "Sanitation"; "Structural";
     "Accessibility"; "HVAC"; "Pest Control"; "Gardening"; "Transport";
     "Signage"; "Fire Safety"; "Other"]%string.

(** What [validate] hands back: an [HTTPException] or the returned body. *)
Inductive response : Type :=
| HTTPException (status_code : N) (detail : str)
| Return (body : value).

Section Validate.

(** The process-wide tag list, read from [tags.json] at start-up
    ([DEFAULT_TAGS] when the file is missing or malformed). *)
Variable PREDEFINED_TAGS : list str.

(** Lines 286-288.  [allowedTags] is [None] or a list of strings;
    [x or y] takes [y] when [x] is [None] or empty. *)
Definition allowed_tags (req_allowedTags : option (list str)) : list str :=
  let source :=
    match req_allowedTags with
    | Some ((_ :: _) as l) => l
    | _ => PREDEFINED_TAGS
    end in
  let allowed := filter (fun t => str_in t PREDEFINED_TAGS) source in
  match allowed with
  | [] => PREDEFINED_TAGS
  | _ => allowed
  end.

End Validate.

(** Lines 360-367, on the keys of the parsed object. *)
Definition allowed_val (parsed_json : dict) : bool :=
  py_bool (dict_get parsed_json (lit "allowed") (VBool false)).

Definition reason_val (parsed_json : dict) : value :=
  dict_get parsed_json (lit "reason") VNone.

Definition flags_val (parsed_json : dict) : dict :=
  match dict_get parsed_json (lit "flags") (VDict []) with
  | VDict d => d
  | _ => []
  end.

Definition suggested_raw (parsed_json : dict) : list value :=
  match dict_get parsed_json (lit "suggestedTags") (VList []) with
  | VList l => l
  | _ => []
  end.

(** Line 370: [[t for t in suggested_raw if isinstance(t, str) and t in allowed_tags]]. *)
Definition keep_tag (allowed : list str) (t : value) : bool :=
  match t with
  | VStr s => str_in s allowed
  | _ => false
  end.

Definition suggested_tags (parsed_json : dict) (allowed : list str) : list value :=
  filter (keep_tag allowed) (suggested_raw parsed_json).

(** Lines 373-378. *)
Definition flag (fv : dict) (k : str) : value :=
  VBool (py_bool (dict_get fv k (VBool false))).

Definition flags (parsed_json : dict) : dict :=
  let fv := flags_val parsed_json in
  [ (lit "inappropriate", flag fv (lit "inappropriate"));
    (lit "spam", flag fv (lit "spam"));
    (lit "advertisement", flag fv (lit "advertisement"));
    (lit "mismatch", flag fv (lit "mismatch")) ].

(** Lines 356-386: the body returned for a parsed value, the effective
    tags of the request and the extracted text (a [str] at this point,
    since the recovery step has accepted it). *)
Definition sanitize (parsed_json : value) (allowed : list str) (text_out : str)
  : response :=
  match parsed_json with
  | VDict d =>
      Return (VDict
        [ (lit "allowed", VBool (allowed_val d));
          (lit "reason", reason_val d);
          (lit "flags", VDict (flags d));
          (lit "suggestedTags", VList (suggested_tags d allowed));
          (lit "raw_llm", VDict [(lit "raw", VStr (prefix_slice 4000 text_out))]) ])
  | _ => HTTPException 500 (lit "LLM returned JSON that is not an object")
  end.

(* ================================================================== *)
(** * Arbitrary Python objects (the SDK response and what hangs off it) *)
(* ================================================================== *)

(** The result of running code that may raise: a value, or an exception
    (a subclass of [Exception]) with the text of its message. *)
Inductive outcome (A : Type) : Type :=
| Returns (a : A)
| Raises (msg : str).
Arguments Returns {A} a.
Arguments Raises {A} msg.

(** Built-in values, and instances of other classes.  An instance is
    given by what the code can observe of it: its attributes (reading one
    gives a value or raises; reading an absent one raises
    [AttributeError]), the result of [str()] on it (a text, or an
    exception), and its truth value (taking it does not raise).
    Dictionaries are keyed by strings. *)
#[warnings="-register-all"]
Inductive pyobj : Type :=
| PNone
| PBool (b : bool)
| PInt (z : Z)
| PFloat (f : spec_float)
| PStr (s : str)
| PList (l : list pyobj)
| PTuple (l : list pyobj)
| PDict (d : list (str * pyobj))
| PInstance (attrs : list (str * outcome pyobj))
            (to_str : outcome str) (truth : bool).

Fixpoint assoc {A} (k : str) (l : list (str * A)) : option A :=
  match l with
  | [] => None
  | (k', v) :: l' => if str_eqb k k' then Some v else assoc k l'
  end.

(** [getattr(o, name, None)], for the names this module probes (none of
    them is an attribute of a built-in type). *)
Definition getattr (o : pyobj) (name : str) : outcome pyobj :=
  match o with
  | PInstance attrs _ _ =>
      match assoc name attrs with
      | Some r => r
      | None => Returns PNone
      end
  | _ => Returns PNone
  end.

(** Truth value of an object. *)
Definition truthy (o : pyobj) : bool :=
  match o with
  | PNone => false
  | PBool b => b
  | PInt z => negb (Z.eqb z 0)
  | PFloat f => match f with S754_zero _ => false | _ => true end
  | PStr s => match s with [] => false | _ => true end
  | PList l => match l with [] => false | _ => true end
  | PTuple l => match l with [] => false | _ => true end
  | PDict d => match d with [] => false | _ => true end
  | PInstance _ _ t => t
  end.

(** [isinstance(o, (list, tuple))], with the elements. *)
Definition as_sequence (o : pyobj) : option (list pyobj) :=
  match o with
  | PList l => Some l
  | PTuple l => Some l
  | _ => None
  end.

(** [o.get(k) if isinstance(o, dict) else None] *)
Definition dict_get_or_none (o : pyobj) (k : str) : pyobj :=
  match o with
  | PDict d => match assoc k d with Some v => v | None => PNone end
  | _ => PNone
  end.

(** Control inside one [try] block of the extractor: go on with a value,
    leave the function with [return], or raise. *)
Inductive flow (A : Type) : Type :=
| Go (a : A)
| Return_ (v : pyobj)
| Raise_ (msg : str).
Arguments Go {A} a.
Arguments Return_ {A} v.
Arguments Raise_ {A} msg.

Definition bind {A B} (m : outcome A) (k : A -> flow B) : flow B :=
  match m with
  | Returns a => k a
  | Raises msg => Raise_ msg
  end.

Notation "x <- m ;; k" := (bind m (fun x => k))
  (at level 61, m at next level, right associativity).

Section Extract.

(** [str()] of a built-in number, constant or container. *)
Variable builtin_str : pyobj -> str.

Definition py_str (o : pyobj) : outcome str :=
  match o with
  | PStr s => Returns s
  | PInstance _ r _ => r
  | _ => Returns (builtin_str o)
  end.

(** [a or b], where [b] is only evaluated when [a] is false. *)
Definition py_or (a : pyobj) (b : outcome pyobj) : outcome pyobj :=
  if truthy a then Returns a else b.

(** Lines 149-156. *)
Definition strategy_candidates (response : pyobj) : flow unit :=
  cands <- getattr response (lit "candidates") ;;
  match (if truthy cands then as_sequence cands else None) with
  | Some (cand0 :: _) =>
      a <- getattr cand0 (lit "text") ;;
      txt <- py_or a (Returns (dict_get_or_none cand0 (lit "text"))) ;;
      if truthy txt then Return_ txt else Go tt
  | _ => Go tt
  end.

(** Lines 170-172: the keys [text], [plain_text], [content] of a
    dictionary part, in this order. *)
Fixpoint scan_keys (part : list (str * pyobj)) (keys : list str)
  : option pyobj :=
  match keys with
  | [] => None
  | key :: keys' =>
      match assoc key part with
      | Some (PStr v) =>
          match strip v with
          | [] => scan_keys part keys'
          | _ => Some (PStr v)
          end
      | _ => scan_keys part keys'
      end
  end.

(** Lines 168-176: the loop over the parts of the first output. *)
Fixpoint scan_parts (content : list pyobj) : flow unit :=
  match content with
  | [] => Go tt
  | part :: rest =>
      match part with
      | PDict d =>
          match scan_keys d [lit "text"; lit "plain_text"; lit "content"] with
          | Some v => Return_ v
          | None => scan_parts rest
          end
      | _ =>
          a <- getattr part (lit "text") ;;
          txt <- py_or a (getattr part (lit "plain_text")) ;;
          match txt with
          | PStr v =>
              match strip v with
              | [] => scan_parts rest
              | _ => Return_ txt
              end
          | _ => scan_parts rest
          end
      end
  end.

(** Lines 162-178. *)
Definition strategy_outputs (response : pyobj) : flow unit :=
  outputs <- getattr response (lit "outputs") ;;
  match (if truthy outputs then as_sequence outputs else None) with
  | Some (out0 :: _) =>
      a <- getattr out0 (lit "content") ;;
      content <- py_or a (Returns (dict_get_or_none out0 (lit "content"))) ;;
      match
        match as_sequence content with
        | Some parts => scan_parts parts
        | None => Go tt
        end
      with
      | Go _ => s <- py_str out0 ;; Return_ (PStr s)
      | other => other
      end
  | _ => Go tt
  end.

(** Lines 184-188. *)
Definition strategy_response (response : pyobj) : flow unit :=
  a <- getattr response (lit "response") ;;
  maybe <- py_or a (getattr response (lit "output")) ;;
  if truthy maybe then
    s <- py_str maybe ;;
    match s with
    | [] => Go tt
    | _ => Return_ (PStr s)
    end
  else Go tt.

(** [try: body / except Exception: pass], then the rest of the function. *)
Definition try_pass (body : flow unit) (rest : outcome pyobj) : outcome pyobj :=
  match body with
  | Return_ v => Returns v
  | Go _ => rest
  | Raise_ _ => rest
  end.

(** Lines 142-193. *)
Definition extract_text_from_response (response : pyobj) : outcome pyobj :=
  try_pass (strategy_candidates response)
 (try_pass (strategy_outputs response)
 (try_pass (strategy_response response)
    (match py_str response with
     | Returns s => Returns (PStr s)
     | Raises msg => Raises msg
     end))).

End Extract.

(* ================================================================== *)
(** * [clean_model_text_and_extract_json] *)
(* ================================================================== *)

(** The three [ValueError]s of the function.  The second one carries the
    decoder's diagnostic in its message; the diagnostic is not modelled. *)
Inductive ValueError : Type :=
| Empty_or_non_string
| Failed_to_parse_candidate
| Unable_to_extract.

Definition ValueError_message (e : ValueError) : str :=
  match e with
  | Empty_or_non_string => lit "Empty or non-string model output"
  | Failed_to_parse_candidate => lit "Failed to parse JSON candidate: "
  | Unable_to_extract => lit "Unable to extract JSON object from model output"
  end.

Section Recovery.

Variable unicodedata_getcode : bytes -> option char.

(** The replacement of character references by [html.unescape], driven
    by the entity tables of the interpreter's [html] package; [None]
    when it raises. *)
Variable charref_sub : str -> option str.

(** [html.unescape(s)]: a text without an ampersand comes back as it is. *)
Definition html_unescape (s : str) : option str :=
  if negb (contains s [38]) then Some s else charref_sub s.

(** Lines 205-210. *)
Definition strip_fence (text : str) : str :=
  let s := strip text in
  match re_search fence_pattern s with
  | Some g => strip g
  | None => s
  end.

(** Line 215: [r'\"' in s or r'\\n' in s or r'\\\"' in s]; the raw
    literals are backslash quote, backslash backslash n, and three
    backslashes followed by a quote. *)
Definition escape_markers (s : str) : bool :=
  contains s [92; 34] || contains s [92; 92; 110] ||
  contains s [92; 92; 92; 34].

(** Lines 214-223. *)
Definition unescape_stage (s : str) : str :=
  if escape_markers s then
    match unescape unicodedata_getcode s with
    | Some s_unescaped =>
        if startswith s_unescaped [34] && endswith s_unescaped [34]
        then slice_1_m1 s_unescaped
        else s_unescaped
    | None => s
    end
  else s.

(** Lines 232-249. *)
Definition brace_scan (s : str) : ValueError + value :=
  match re_search brace_pattern s with
  | Some candidate =>
      let candidate_clean :=
        match unescape unicodedata_getcode candidate with
        | Some c => c
        | None => candidate
        end in
      match json_loads candidate_clean with
      | Some v => inr v
      | None =>
          match html_unescape candidate_clean with
          | Some h =>
              match json_loads h with
              | Some v => inr v
              | None => inl Failed_to_parse_candidate
              end
          | None => inl Failed_to_parse_candidate
          end
      end
  | None => inl Unable_to_extract
  end.

(** Lines 195-249. *)
Definition clean_model_text_and_extract_json (text : pyobj)
  : ValueError + value :=
  match text with
  | PStr [] => inl Empty_or_non_string
  | PStr t =>
      let s := unescape_stage (strip_fence t) in
      match json_loads s with
      | Some v => inr v
      | None => brace_scan s
      end
  | _ => inl Empty_or_non_string
  end.

End Recovery.

(* ================================================================== *)
(** * [guess_mime_from_url] *)
(* ================================================================== *)

Section Mime.

(** [mimetypes.guess_type]: the pair (type, encoding) that the
    interpreter's tables give for a URL. *)
Variable mimetypes_guess_type : str -> option str * option str.

(** Lines 251-257. *)
Definition guess_mime_from_url (url : str) : str :=
  match url with
  | [] => lit "image/jpeg"
  | _ =>
      match fst (mimetypes_guess_type url) with
      | Some mime =>
          match mime with
          | [] => lit "image/jpeg"
          | _ => if startswith mime (lit "image/") then mime
                 else lit "image/jpeg"
          end
      | None => lit "image/jpeg"
      end
  end.

End Mime.

(* ================================================================== *)
(** * [validate], from the model's response on (lines 345-395) *)
(* ================================================================== *)

Section ValidateTail.

Variable builtin_str : pyobj -> str.
Variable unicodedata_getcode : bytes -> option char.
Variable charref_sub : str -> option str.

Definition llm_check_failed (msg : str) : response :=
  HTTPException 500 (lit "LLM check failed: " ++ msg).

(** Lines 349-386 for an extracted [text_out]. *)
Definition validate_text (allowed : list str) (text_out : pyobj) : response :=
  match clean_model_text_and_extract_json unicodedata_getcode charref_sub text_out with
  | inl _ =>
      match py_str builtin_str text_out with
      | Returns s =>
          HTTPException 500
            (lit "LLM returned non-JSON output. Raw (truncated): "
             ++ prefix_slice 1000 s)
      | Raises msg => llm_check_failed msg
      end
  | inr parsed_json =>
      match py_str builtin_str text_out with
      | Returns s => sanitize parsed_json allowed s
      | Raises msg => llm_check_failed msg
      end
  end.

(** Lines 346-395 for a response [resp] of the model. *)
Definition validate_response (allowed : list str) (resp : pyobj) : response :=
  match extract_text_from_response builtin_str resp with
  | Returns text_out => validate_text allowed text_out
  | Raises msg => llm_check_failed msg
  end.

End ValidateTail.

(* ================================================================== *)
(** * [build_prompt] *)
(* ================================================================== *)

(** Literals that hold both quote characters are written with a tilde
    (code point 126) for the double quote. *)
Definition tlit (s : string) : str :=
  map (fun c => if c =? 126 then 34 else c) (lit s).

(** [sep.join(l)] *)
Fixpoint join (sep : str) (l : list str) : str :=
  match l with
  | [] => []
  | x :: r =>
      match r with
      | [] => x
      | _ => x ++ sep ++ join sep r
      end
  end.

(** Lines 114-136: the fixed instruction block. *)
Definition system : str :=
  tlit "You are a strict content-moderation-and-categorization assistant. When given an image (accessible via the provided URL) and a text description, you MUST return ONLY a single JSON object (no surrounding commentary, no markdown, nothing but JSON). The JSON must match EXACTLY this schema:
{
  ~allowed~: boolean,          # true if content is allowed to post
  ~reason~: string|null,       # short reason when blocked
  ~flags~: {                   # booleans for categories
      ~inappropriate~: boolean,
      ~spam~: boolean,
      ~advertisement~: boolean,
      ~mismatch~: boolean
  },
  ~suggestedTags~: [string...]  # list of tags from the allowed tags list
}

Rules:
1) If any of inappropriate/spam/advertisement is true, set allowed=false and provide reason.
2) If mismatch is true (image clearly does not match the description), set allowed=false and provide reason.
3) suggestedTags MUST be a subset of the allowed tags provided below; DO NOT invent new tags.
4) If uncertain, set allowed=false and reason='uncertain'.
Return JSON only and nothing else.".

(** Line 112. *)
Definition tag_list_text (allowed : list str) : str :=
  match allowed with
  | [] => lit "no tags provided"
  | _ => join (lit ", ") allowed
  end.

(** Line 138; [image_url or 'NONE'] takes the sentinel for [None] and for
    the empty string. *)
Definition user (description : str) (image_url : option str)
  (allowed : list str) : str :=
  lit "IMAGE_URL: "
  ++ match image_url with
     | Some ((_ :: _) as u) => u
     | _ => lit "NONE"
     end
  ++ [10; 10] ++ tlit "DESCRIPTION: ~~~" ++ description ++ tlit "~~~"
  ++ [10; 10] ++ lit "ALLOWED_TAGS: " ++ tag_list_text allowed
  ++ [10; 10] ++ lit "Return the JSON object exactly as described above.".

(** Lines 108-140. *)
Definition build_prompt (description : str) (image_url : option str)
  (allowed : list str) : str :=
  system ++ [10; 10] ++ user description image_url allowed.

(* ================================================================== *)
(** * Loading the process-wide tags (lines 56-74) *)
(* ================================================================== *)

Section TagFile.

(** [str()] of a parsed value that is not a string. *)
Variable value_str : value -> str.

(** [str(t)] for an entry of the file. *)
Definition tag_str (t : value) : str :=
  match t with
  | VStr s => s
  | _ => value_str t
  end.

(** The start-up block.  [tag_file] is [None] when [tags.json] does not
    exist; otherwise it is what opening and reading the file gives: its
    text, or an exception. *)
Definition load_tags (tag_file : option (outcome str)) : list str :=
  match tag_file with
  | None => DEFAULT_TAGS
  | Some (Raises _) => DEFAULT_TAGS
  | Some (Returns text) =>
      match json_loads text with
      | None => DEFAULT_TAGS
      | Some data =>
          match data with
          | VDict d =>
              match dict_lookup d (lit "tags") with
              | Some (VList tags) => map tag_str tags
              | _ => DEFAULT_TAGS
              end
          | VList tags => map tag_str tags
          | _ => DEFAULT_TAGS
          end
      end
  end.

End TagFile.

(* ================================================================== *)
(** * [validate], whole (lines 274-395) *)
(* ================================================================== *)

(** The request body. *)
Record CheckRequest : Type := {
  description : str;
  imageUrl : option str;
  allowedTags : option (list str)
}.

(** An element of the list handed to the model: the image, as an SDK
    part or as a plain dictionary with the raw bytes, and the prompt. *)
Inductive part : Type :=
| SdkPart (mime : str) (data : bytes)
| RawImage (mime : str) (data : bytes)
| TextPart (text : str).

(** What a call into the SDK can raise, as far as the handlers of
    [validate] tell exceptions apart.  A [GoogleAPIError] carries the
    attribute [message] that the handler reads, as the call and retry
    errors of [google.api_core] do. *)
Inductive raised : Type :=
| TypeError (msg : str)
| GoogleAPIError (message : str)
| OtherException (msg : str).

(** The two ways [generate_content] is called (lines 340 and 343). *)
Inductive call_signature : Type :=
| WithGenerationConfig
| WithKeywords.

(** Everything the endpoints read from outside: the flags ([HAS_GENAI]
    is [_HAS_GENAI]), the port and the tag list set at start-up, the
    image download ([None]: the request, its status check or the MIME
    guess raised), the SDK. *)
Record environment : Type := {
  HAS_GENAI : bool;
  GENAI_CONFIGURED : bool;
  PORT : Z;
  PREDEFINED_TAGS : list str;
  requests_get : str -> option bytes;
  mimetypes_guess_type : str -> option str * option str;
  part_from_bytes : bytes -> str -> bool;
  has_GenerativeModel : bool;
  GenerativeModel : option raised;
  generate_content : list part -> call_signature -> raised + pyobj;
  builtin_str : pyobj -> str;
  unicodedata_getcode : bytes -> option char;
  charref_sub : str -> option str
}.

(** Lines 388-395: what the handlers make of an exception. *)
Definition handle (e : raised) : response :=
  match e with
  | GoogleAPIError message =>
      HTTPException 500 (lit "Gemini API error: " ++ message)
  | TypeError msg => HTTPException 500 (lit "LLM check failed: " ++ msg)
  | OtherException msg => HTTPException 500 (lit "LLM check failed: " ++ msg)
  end.

(** Lines 304-329: the image part, once the bytes are there. *)
Definition image_part (env : environment) (url : str) (img_bytes : bytes)
  : part :=
  let mime := guess_mime_from_url (mimetypes_guess_type env) url in
  if part_from_bytes env img_bytes mime then SdkPart mime img_bytes
  else RawImage mime img_bytes.

(** Lines 331-343: the model call, with its retry on [TypeError]. *)
Definition call_model (env : environment) (parts : list part)
  : raised + pyobj :=
  if negb (has_GenerativeModel env) then
    inl (OtherException
           (lit "google-generativeai SDK does not expose GenerativeModel. Upgrade package."))
  else
    match GenerativeModel env with
    | Some e => inl e
    | None =>
        match generate_content env parts WithGenerationConfig with
        | inl (TypeError _) => generate_content env parts WithKeywords
        | other => other
        end
    end.

(** Lines 293-329: the parts before the prompt is added; [None] when the
    image could not be fetched. *)
Definition image_parts (env : environment) (req : CheckRequest)
  : option (list part) :=
  match imageUrl req with
  | Some url =>
      match requests_get env url with
      | Some img_bytes => Some [image_part env url img_bytes]
      | None => None
      end
  | None => Some []
  end.

(** Lines 274-395. *)
Definition validate (env : environment) (req : CheckRequest) : response :=
  if negb (GENAI_CONFIGURED env) then
    HTTPException 500
      (lit "LLM backend not configured. Set GEMINI_API_KEY and install google-generativeai.")
  else
    let tags := allowed_tags (PREDEFINED_TAGS env) (allowedTags req) in
    let prompt := build_prompt (description req) (imageUrl req) tags in
    match image_parts env req with
    | None => HTTPException 400 (lit "Could not fetch image for validation")
    | Some parts =>
        match call_model env (parts ++ [TextPart prompt]) with
        | inl e => handle e
        | inr resp =>
            validate_response (builtin_str env) (unicodedata_getcode env)
              (charref_sub env) tags resp
        end
    end.

(** Lines 43 and 76-90: the configuration flag set at start-up.
    [api_key_env] is the environment variable [GEMINI_API_KEY], if set;
    [configure_ok] tells whether [genai.configure] returns. *)
Definition GEMINI_API_KEY (api_key_env : option str) : str :=
  strip (match api_key_env with Some k => k | None => [] end).

Definition configure_at_startup (api_key_env : option str)
  (has_genai configure_ok : bool) : bool :=
  match GEMINI_API_KEY api_key_env with
  | [] => false
  | _ => has_genai && configure_ok
  end.

(** Lines 260-268: the [/health] endpoint. *)
Definition health (env : environment) : value :=
  VDict [ (lit "ok", VBool true);
          (lit "genai_configured", VBool (GENAI_CONFIGURED env));
          (lit "has_genai_sdk", VBool (HAS_GENAI env));
          (lit "port", VInt (PORT env));
          (lit "tag_count", VInt (Z.of_nat (List.length (PREDEFINED_TAGS env)))) ].

(** Lines 270-272: the [/tags] endpoint. *)
Definition get_tags (env : environment) : value :=
  VDict [ (lit "tags", VList (map VStr (PREDEFINED_TAGS env)));
          (lit "count", VInt (Z.of_nat (List.length (PREDEFINED_TAGS env)))) ].

(* ================================================================== *)
(** * The notions the claims are stated with, and sample inputs *)
(* ================================================================== *)

(** ** Sanitising *)

(** The value the claim gives a recognised flag: the truth value of the
    entry when the [flags] field is an object that has it, false when
    the entry or the field is missing or the field is not an object. *)
Definition coerced_flag (d : dict) (k : str) : bool :=
  match dict_lookup d (lit "flags") with
  | Some (VDict given) =>
      match dict_lookup given k with
      | Some v => py_bool v
      | None => false
      end
  | _ => false
  end.

Definition flag_keys : list str :=
  [lit "inappropriate"; lit "spam"; lit "advertisement"; lit "mismatch"].

Definition is_bool_entry (d : dict) (k : str) : bool :=
  match dict_lookup d k with Some (VBool _) => true | _ => false end.

(** A parsed object shaped like a decision: [allowed] a boolean,
    [reason] a string or null, [flags] an object holding a boolean under
    each of the four keys, [suggestedTags] a list of strings that belong
    to the effective tags. *)
Definition decision_shaped (allowed : list str) (d : dict) : bool :=
  is_bool_entry d (lit "allowed") &&
  match dict_lookup d (lit "reason") with
  | Some VNone => true
  | Some (VStr _) => true
  | _ => false
  end &&
  match dict_lookup d (lit "flags") with
  | Some (VDict given) => forallb (is_bool_entry given) flag_keys
  | _ => false
  end &&
  match dict_lookup d (lit "suggestedTags") with
  | Some (VList tags) => forallb (keep_tag allowed) tags
  | _ => false
  end.

Definition sample_tags : list str := [lit "Wifi"; lit "Network"].

Definition sample_decision : dict :=
  [ (lit "allowed", VBool true);
    (lit "reason", VNone);
    (lit "flags",
     VDict [ (lit "spam", VBool false); (lit "inappropriate", VBool false);
             (lit "advertisement", VBool false); (lit "mismatch", VBool true) ]);
    (lit "suggestedTags", VList [VStr (lit "Wifi")]) ].

(** ** Effective tags *)

(** The requested tags that the process-wide list knows. *)
Definition tag_intersection (requested known : list str) : list str :=
  filter (fun t => str_in t known) requested.

(** The effective tags in the claim's words: the intersection when tags
    were supplied and the intersection is not empty, the whole
    process-wide list otherwise. *)
Definition effective_tags (known : list str) (requested : option (list str))
  : list str :=
  match requested with
  | None => known
  | Some l =>
      match tag_intersection l known with
      | [] => known
      | common => common
      end
  end.

(** ** MIME types *)

(** A small table in the manner of [mimetypes]: the type follows from
    the extension. *)
Definition sample_guess_type (url : str) : option str * option str :=
  if endswith url (lit ".pdf") then (Some (lit "application/pdf"), None)
  else if endswith url (lit ".txt") then (Some (lit "text/plain"), None)
  else if endswith url (lit ".png") then (Some (lit "image/png"), None)
  else (None, None).

(** ** The extractor *)

(** [isinstance(o, str)] *)
Definition is_str (o : pyobj) : bool :=
  match o with PStr _ => true | _ => false end.

(** A response whose [candidates] list starts with the dictionary
    [{"text": 123}]. *)
Definition response_with_numeric_text : pyobj :=
  PInstance
    [ (lit "candidates", Returns (PList [PDict [(lit "text", PInt 123)]])) ]
    (Returns (lit "response")) true.

(** ** Recovery: the texts of the specification's examples *)

(** An object between two sentences. *)
Definition prose_text : str :=
  qlit "Sure! Here is the result: {'allowed': true, 'flags': {'spam': false}, 'suggestedTags': ['Wifi']} Hope that helps.".

Definition embedded_text : str :=
  qlit "{'allowed': true, 'flags': {'spam': false}, 'suggestedTags': ['Wifi']}".

Definition embedded_object : value :=
  VDict [ (lit "allowed", VBool true);
          (lit "flags", VDict [(lit "spam", VBool false)]);
          (lit "suggestedTags", VList [VStr (lit "Wifi")]) ].

(** A text without any brace. *)
Definition refusal_text : str := lit "I cannot comply with this request.".

(** An object in a fence tagged [json], on three lines. *)
Definition fenced_text : str :=
  lit "```json" ++ [10] ++ qlit "{'allowed':true,'flags':{},'suggestedTags':[]}"
  ++ [10] ++ lit "```".

(** An object written as a quoted string with escaped quotes. *)
Definition quoted_escaped_text : str :=
  qlit "'{\'allowed\': false, \'reason\': \'uncertain\', \'flags\': {}, \'suggestedTags\': []}'".

(** An object whose string holds the escape backslash n. *)
Definition json_with_newline_escape : str := qlit "{'a': 'x\ny'}".

(** The detail of the 500 answer to a text that could not be recovered. *)
Definition non_json_detail (text : str) : str :=
  lit "LLM returned non-JSON output. Raw (truncated): " ++ prefix_slice 1000 text.

(** ** Escape normalisation *)

(** One unescape pass; the first and the last character are dropped
    when the result starts and ends with a double quote; the text is
    kept when unescaping raises. *)
Definition unescaped_and_unquoted (getcode : bytes -> option char) (s : str)
  : str :=
  match unescape getcode s with
  | Some u => if startswith u [34] && endswith u [34] then slice_1_m1 u else u
  | None => s
  end.

(** The step as the claim words it: triggered by backslash quote or by
    backslash n. *)
Definition normalisation_as_claimed (getcode : bytes -> option char) (s : str)
  : str :=
  if contains s [92; 34] || contains s [92; 110]
  then unescaped_and_unquoted getcode s else s.

(** The step as amended: triggered by backslash quote or by two
    backslashes followed by n. *)
Definition normalisation_amended (getcode : bytes -> option char) (s : str)
  : str :=
  if contains s [92; 34] || contains s [92; 92; 110]
  then unescaped_and_unquoted getcode s else s.

(** ** Searches *)

Definition suffix_of (s' s : str) : Prop := exists p, s = p ++ s'.


(** ** The answers of [validate] *)

(** The shape of every body [validate] returns, for the tags [allowed]:
    five entries in this order; [allowed] and the four flags are
    booleans, the suggested tags are strings of [allowed], and the raw
    text has at most 4000 characters. *)
Definition decision_body (allowed : list str) (body : value) : Prop :=
  exists (a : bool) (reason : value) (f1 f2 f3 f4 : bool) (tags : list str)
         (raw : str),
    body = VDict
      [ (lit "allowed", VBool a);
        (lit "reason", reason);
        (lit "flags",
         VDict [ (lit "inappropriate", VBool f1); (lit "spam", VBool f2);
                 (lit "advertisement", VBool f3); (lit "mismatch", VBool f4) ]);
        (lit "suggestedTags", VList (map VStr tags));
        (lit "raw_llm", VDict [(lit "raw", VStr raw)]) ] /\
    Forall (fun t => In t allowed) tags /\
    (List.length raw <= 4000)%nat.

(** The image was asked for and could not be fetched. *)
Definition fetch_failed (env : environment) (req : CheckRequest) : bool :=
  match imageUrl req with
  | Some url => match requests_get env url with None => true | Some _ => false end
  | None => false
  end.

Definition not_configured : response :=
  HTTPException 500
    (lit "LLM backend not configured. Set GEMINI_API_KEY and install google-generativeai.").


(** Two parsed objects agree on the four keys that [validate] reads. *)
Definition same_decision_keys (d d' : dict) : Prop :=
  dict_lookup d (lit "allowed") = dict_lookup d' (lit "allowed") /\
  dict_lookup d (lit "reason") = dict_lookup d' (lit "reason") /\
  dict_lookup d (lit "flags") = dict_lookup d' (lit "flags") /\
  dict_lookup d (lit "suggestedTags") = dict_lookup d' (lit "suggestedTags").

(** The text of an answer that follows the schema of the prompt. *)
Definition sample_answer : str :=
  qlit "{'allowed': true, 'reason': null, 'flags': {'inappropriate': false, 'spam': false, 'advertisement': false, 'mismatch': false}, 'suggestedTags': ['Wifi', 'Parking']}".


(** The body [validate] makes of it when the tags are [sample_tags]. *)
Definition sample_body : value :=
  VDict
    [ (lit "allowed", VBool true);
      (lit "reason", VNone);
      (lit "flags",
       VDict [ (lit "inappropriate", VBool false); (lit "spam", VBool false);
               (lit "advertisement", VBool false); (lit "mismatch", VBool false) ]);
      (lit "suggestedTags", VList [VStr (lit "Wifi")]);
      (lit "raw_llm", VDict [(lit "raw", VStr sample_answer)]) ].

(** An SDK response that carries this text in its first candidate. *)
Definition sample_response : pyobj :=
  PInstance
    [ (lit "candidates", Returns (PList [PDict [(lit "text", PStr sample_answer)]])) ]
    (Returns (lit "response")) true.

(** A configured service with two tags whose model gives that response. *)
Definition sample_env : environment :=
  {| HAS_GENAI := true;
     GENAI_CONFIGURED := true;
     PORT := 9000;
     PREDEFINED_TAGS := sample_tags;
     requests_get := fun _ => None;
     mimetypes_guess_type := sample_guess_type;
     part_from_bytes := fun _ _ => false;
     has_GenerativeModel := true;
     GenerativeModel := None;
     generate_content := fun _ _ => inr sample_response;
     builtin_str := fun _ => [];
     unicodedata_getcode := fun _ => None;
     charref_sub := fun _ => None |}.

Definition sample_request : CheckRequest :=
  {| description := lit "The wifi is down in block B";
     imageUrl := None;
     allowedTags := None |}.

(** ** The tags file *)

(** The file gives no tag list: it is missing, cannot be read, is not
    JSON, or its JSON is neither an array nor an object with an array
    under [tags]. *)
Definition no_tag_list (tag_file : option (outcome str)) : bool :=
  match tag_file with
  | None => true
  | Some (Raises _) => true
  | Some (Returns text) =>
      match json_loads text with
      | None => true
      | Some (VList _) => false
      | Some (VDict d) =>
          match dict_lookup d (lit "tags") with
          | Some (VList _) => false
          | _ => true
          end
      | Some _ => true
      end
  end.

(** ** Fences, trimming and plain texts *)

Definition prefix_of (s' s : str) : Prop := exists q, s = s' ++ q.

(** The tag of the fence pattern, and the part of the pattern after it. *)
Definition json_tag : regex :=
  Seq (Class (chr_ignorecase 106 74))
 (Seq (Class (chr_ignorecase 115 83))
 (Seq (Class (chr_ignorecase 111 79))
      (Class (chr_ignorecase 110 78)))).

Definition after_tag : regex :=
  Seq (Star isspace)
   (Seq (Group (LazyStar any_char))
   (Seq (Star isspace) backticks)).

(** The opening fences considered: the tag [json] in lower or in upper
    case, or no tag when what follows does not start with a j. *)
Definition fence_tag (tag rest : str) : Prop :=
  tag = lit "json" \/ tag = lit "JSON" \/
  (tag = [] /\ ~ In (hd 0 rest) [106; 74]).

Definition is_ascii (s : str) : bool := forallb (fun c => c <? 128) s.

(** ** Quoted, escaped texts *)

(** A text as a sender writes it inside a quoted string: a backslash
    before every double quote, and backslash n for every newline. *)
Definition escape_char (c : char) : str :=
  if c =? 34 then [92; 34] else if c =? 10 then [92; 110] else [c].

Definition escaped (j : str) : str := flat_map escape_char j.

Definition quoted (j : str) : str := 34 :: escaped j ++ [34].

(** ** More responses *)

(** [o] is an instance of a class of its own, not a built-in value. *)
Definition is_instance (o : pyobj) : bool :=
  match o with PInstance _ _ _ => true | _ => false end.

(** A response that is a dictionary with a text under [candidates]. *)
Definition dict_response : pyobj :=
  PDict [ (lit "candidates", PList [PDict [(lit "text", PStr (lit "hello"))]]) ].

(** The text of a candidate: its attribute [text] when that is truthy,
    else its entry [text] when the candidate is a dictionary. *)
Definition candidate_text (cand0 txt : pyobj) : Prop :=
  (getattr cand0 (lit "text") = Returns txt /\ truthy txt = true) \/
  (exists a, getattr cand0 (lit "text") = Returns a /\ truthy a = false /\
             dict_get_or_none cand0 (lit "text") = txt).

(** A response with a text in its first candidate and another one in
    its first output. *)
Definition response_with_both : pyobj :=
  PInstance
    [ (lit "candidates", Returns (PList [PDict [(lit "text", PStr (lit "first"))]]));
      (lit "outputs", Returns (PList [PDict [(lit "content",
                                 PList [PDict [(lit "text", PStr (lit "second"))]])]])) ]
    (Returns (lit "response")) true.

(** The same service with an SDK whose [generate_content] does not take
    [generation_config]. *)
Definition sample_env_keywords : environment :=
  {| HAS_GENAI := true;
     GENAI_CONFIGURED := true;
     PORT := 9000;
     PREDEFINED_TAGS := sample_tags;
     requests_get := fun _ => None;
     mimetypes_guess_type := sample_guess_type;
     part_from_bytes := fun _ _ => false;
     has_GenerativeModel := true;
     GenerativeModel := None;
     generate_content := fun _ how =>
       match how with
       | WithGenerationConfig => inl (TypeError (lit "unexpected keyword argument"))
       | WithKeywords => inr sample_response
       end;
     builtin_str := fun _ => [];
     unicodedata_getcode := fun _ => None;
     charref_sub := fun _ => None |}.

(** A service started with an API key of two spaces. *)
Definition sample_env_unconfigured : environment :=
  {| HAS_GENAI := true;
     GENAI_CONFIGURED := configure_at_startup (Some [32; 32]) true true;
     PORT := 9000;
     PREDEFINED_TAGS := sample_tags;
     requests_get := fun _ => None;
     mimetypes_guess_type := sample_guess_type;
     part_from_bytes := fun _ _ => false;
     has_GenerativeModel := true;
     GenerativeModel := None;
     generate_content := fun _ _ => inr sample_response;
     builtin_str := fun _ => [];
     unicodedata_getcode := fun _ => None;
     charref_sub := fun _ => None |}.

(** The entry of a returned body under a key. *)
Definition body_entry (body : value) (k : str) : option value :=
  match body with
  | VDict b => dict_lookup b k
  | _ => None
  end.

(* ================================================================== *)
(** * Basic facts about texts, lists and dictionaries *)
(* ================================================================== *)

Lemma str_eqb_eq (a b : str) : str_eqb a b = true <-> a = b.
Proof.
  revert b. induction a as [|x a IH]; intros [|y b]; simpl; split;
    try congruence; try reflexivity.
  - intros H. apply andb_true_iff in H. destruct H as [Hx Hr].
    apply N.eqb_eq in Hx. apply IH in Hr. congruence.
  - intros H. injection H as -> ->. rewrite N.eqb_refl. simpl.
    now apply IH.
Qed.

Lemma str_eqb_refl (a : str) : str_eqb a a = true.
Proof. now apply str_eqb_eq. Qed.

Lemma str_in_In (t : str) (l : list str) : str_in t l = true <-> In t l.
Proof.
  unfold str_in. rewrite existsb_exists. split.
  - intros [x [Hin Heq]]. apply str_eqb_eq in Heq. now subst.
  - intros Hin. exists t. split; [assumption | apply str_eqb_refl].
Qed.

Lemma filter_all {A} (f : A -> bool) (l : list A) :
  (forall x, In x l -> f x = true) -> filter f l = l.
Proof.
  induction l as [|a l IH]; simpl; intros H; [reflexivity|].
  rewrite (H a (or_introl eq_refl)). f_equal. apply IH.
  intros x Hx. apply H. now right.
Qed.

Lemma filter_idempotent {A} (f : A -> bool) (l : list A) :
  filter f (filter f l) = filter f l.
Proof.
  apply filter_all. intros x Hx. apply filter_In in Hx. tauto.
Qed.

(* ================================================================== *)
(** * Substrings *)
(* ================================================================== *)

Lemma startswith_app (s p : str) :
  startswith s p = true <-> exists b, s = p ++ b.
Proof.
  revert s. induction p as [|c p IH]; intros s; simpl.
  - split; [intros _; now exists s | reflexivity].
  - destruct s as [|d s].
    + split; [discriminate | intros [b Hb]; discriminate].
    + rewrite andb_true_iff, N.eqb_eq, IH. split.
      * intros [-> [b ->]]. now exists b.
      * intros [b Hb]. injection Hb as -> ->. split; [reflexivity | now exists b].
Qed.

Lemma contains_app (s p : str) :
  contains s p = true <-> exists a b, s = a ++ p ++ b.
Proof.
  induction s as [|c s IH].
  - simpl. rewrite orb_false_r, startswith_app. split.
    + intros [b Hb]. now exists [], b.
    + intros [a [b Hab]]. destruct a; [now exists b | discriminate].
  - simpl contains. rewrite orb_true_iff, startswith_app, IH. split.
    + intros [[b Hb] | [a [b Hab]]].
      * now exists [], b.
      * exists (c :: a), b. simpl. now f_equal.
    + intros [a [b Hab]]. destruct a as [|x a].
      * left. now exists b.
      * right. injection Hab as _ ->. now exists a, b.
Qed.

(** An occurrence of [q ++ p] contains an occurrence of [p]. *)
Lemma contains_tail_of_pattern (s q p : str) :
  contains s (q ++ p) = true -> contains s p = true.
Proof.
  rewrite !contains_app. intros [a [b ->]].
  exists (a ++ q), b. now rewrite <- !app_assoc.
Qed.

Lemma contains_single (s : str) (c : char) :
  contains s [c] = true <-> In c s.
Proof.
  rewrite contains_app. split.
  - intros [a [b ->]]. apply in_or_app. right. now left.
  - intros H. apply in_split in H. destruct H as [a [b ->]]. now exists a, b.
Qed.

Lemma contains_In (s p : str) (c : char) :
  contains s p = true -> In c p -> In c s.
Proof.
  rewrite contains_app. intros [a [b ->]] H.
  apply in_or_app. right. apply in_or_app. now left.
Qed.

(* ================================================================== *)
(** * The decoder always has enough fuel

    Every call of the scanner consumes at least one character of its
    input, so the fuel [json_loads] supplies (twice the length, plus one)
    is never used up: a [None] of [json_loads] is a decoding error. *)
(* ================================================================== *)

Lemma skip_ws_length (s : str) : (List.length (skip_ws s) <= List.length s)%nat.
Proof.
  induction s as [|c t IH]; simpl; [lia|].
  destruct (is_json_ws c); simpl; lia.
Qed.

(** Case analysis on the scrutinee of a [match] in hypothesis [H]. *)
Ltac break_match H :=
  match type of H with
  | context [match ?x with _ => _ end] => destruct x eqn:?
  end.

Lemma scanstring_shrinks (n : nat) :
  forall s acc x r, (List.length s <= n)%nat ->
    scanstring s acc = Some (x, r) -> (List.length r < List.length s)%nat.
Proof.
  induction n as [|n IH]; intros s acc x r Hlen H;
    (destruct s as [|c t]; [discriminate|]); simpl in Hlen; [lia|].
  simpl in H.
  repeat first
    [ discriminate
    | match type of H with
      | Some _ = Some _ => injection H as <- <-; simpl; lia
      | scanstring _ _ = Some _ => apply IH in H; simpl in *; lia
      end
    | break_match H ].
Qed.

Lemma span_digits_length (s ds r : str) :
  span_digits s = (ds, r) -> (List.length r <= List.length s)%nat.
Proof.
  revert ds r. induction s as [|c t IH]; simpl; intros ds r H.
  - injection H as <- <-. simpl. lia.
  - destruct (is_digit c).
    + destruct (span_digits t) as [ds' r'] eqn:E. injection H as <- <-.
      specialize (IH _ _ eq_refl). lia.
    + injection H as <- <-. simpl. lia.
Qed.

(** Case analysis on the scrutinee of a [match] in any hypothesis. *)
Ltac break_any :=
  match goal with
  | H : context [match ?x with _ => _ end] |- _ => destruct x eqn:?
  end.

(** Equations between results: components, or a contradiction. *)
Ltac invert_results :=
  repeat match goal with
  | E : span_digits _ = (_, _) |- _ => apply span_digits_length in E
  | E : (_, _) = (_, _) |- _ => inversion E; clear E
  | E : Some _ = Some _ |- _ => inversion E; clear E
  | E : Some _ = None |- _ => discriminate E
  | E : None = Some _ |- _ => discriminate E
  end.

Lemma match_number_shrinks (s : str) (v : value) (r : str) :
  match_number s = Some (v, r) -> (List.length r < List.length s)%nat.
Proof.
  unfold match_number. intros H.
  repeat (first [discriminate | break_any]); invert_results; subst;
    simpl in *; lia.
Qed.

Lemma skipn_length_le (n : nat) (s : str) :
  (List.length (skipn n s) <= List.length s)%nat.
Proof. rewrite length_skipn. lia. Qed.

(** What the parts of the scanner say about the length of the rest. *)
Ltac length_facts :=
  repeat match goal with
  | E : scanstring ?t _ = Some (_, _) |- _ =>
      apply (scanstring_shrinks (List.length t)) in E; [|lia]
  | E : match_number _ = Some _ |- _ => apply match_number_shrinks in E
  | E : skip_ws ?x = _ :: _ |- _ =>
      let L := fresh "L" in
      pose proof (skip_ws_length x) as L; rewrite E in L; clear E
  | E : Scanned _ (skipn (S ?n) (?c :: ?t)) = Scanned _ _ |- _ =>
      let L := fresh "L" in
      pose proof (skipn_length_le n t) as L;
      change (skipn (S n) (c :: t)) with (skipn n t) in E;
      let k := fresh "k" in
      set (k := skipn n t) in *; clearbody k; inversion E; clear E
  | E : Scanned _ _ = Scanned _ _ |- _ => inversion E; clear E
  | E : ScanError = Scanned _ _ |- _ => discriminate E
  | E : OutOfFuel = Scanned _ _ |- _ => discriminate E
  | E : Scanned _ _ = OutOfFuel |- _ => discriminate E
  | E : ScanError = OutOfFuel |- _ => discriminate E
  end.

(** Skipping whitespace does not lengthen a text. *)
Ltac skip_ws_facts :=
  repeat match goal with
  | H : context [List.length (skip_ws ?x)] |- _ =>
      let L := fresh "L" in
      pose proof (skip_ws_length x) as L;
      let k := fresh "k" in
      set (k := skip_ws x) in *; clearbody k
  | |- context [List.length (skip_ws ?x)] =>
      let L := fresh "L" in
      pose proof (skip_ws_length x) as L;
      let k := fresh "k" in
      set (k := skip_ws x) in *; clearbody k
  end.

Lemma scan_shrinks (fuel : nat) :
  (forall s v r, scan_once fuel s = Scanned v r ->
                 (List.length r < List.length s)%nat) /\
  (forall acc s v r, object_items fuel acc s = Scanned v r ->
                     (List.length r < List.length s)%nat) /\
  (forall acc s v r, array_items fuel acc s = Scanned v r ->
                     (List.length r < List.length s)%nat).
Proof.
  induction fuel as [|f [IHs [IHo IHa]]];
    [repeat split; intros; discriminate|].
  split; [|split].
  - intros s v r H. destruct s as [|c t]; [discriminate|].
    cbn [scan_once] in H.
    repeat (first [discriminate | break_any]); length_facts;
      repeat match goal with
      | E : object_items f _ _ = Scanned _ _ |- _ => apply IHo in E
      | E : array_items f _ _ = Scanned _ _ |- _ => apply IHa in E
      end; subst; skip_ws_facts; simpl in *; lia.
  - intros acc s v r H. destruct s as [|c t]; [discriminate|].
    cbn [object_items] in H.
    repeat (first [discriminate | break_any]); length_facts;
      repeat match goal with
      | E : scan_once f _ = Scanned _ _ |- _ => apply IHs in E
      | E : object_items f _ _ = Scanned _ _ |- _ => apply IHo in E
      end; subst; skip_ws_facts; simpl in *; lia.
  - intros acc s v r H. cbn [array_items] in H.
    repeat (first [discriminate | break_any]); length_facts;
      repeat match goal with
      | E : scan_once f _ = Scanned _ _ |- _ => apply IHs in E
      | E : array_items f _ _ = Scanned _ _ |- _ => apply IHa in E
      end; subst; skip_ws_facts; simpl in *; lia.
Qed.

(** A successful scan with fuel [f] leaves a shorter rest. *)
Ltac shrink_facts f :=
  repeat match goal with
  | E : scan_once f _ = Scanned _ _ |- _ => apply (proj1 (scan_shrinks f)) in E
  | E : object_items f _ _ = Scanned _ _ |- _ =>
      apply (proj1 (proj2 (scan_shrinks f))) in E
  | E : array_items f _ _ = Scanned _ _ |- _ =>
      apply (proj2 (proj2 (scan_shrinks f))) in E
  end.

Lemma scan_fuel (fuel : nat) :
  (forall s, (2 * List.length s < fuel)%nat -> scan_once fuel s <> OutOfFuel) /\
  (forall acc s, (2 * List.length s < fuel)%nat ->
                 object_items fuel acc s <> OutOfFuel) /\
  (forall acc s, (2 * List.length s + 1 < fuel)%nat ->
                 array_items fuel acc s <> OutOfFuel).
Proof.
  induction fuel as [|f [IHs [IHo IHa]]]; [repeat split; intros; lia|].
  split; [|split].
  - intros s Hlt H. destruct s as [|c t]; [discriminate|].
    cbn [scan_once] in H.
    repeat (first [discriminate | break_any]); length_facts;
      match goal with
      | E : object_items f _ _ = OutOfFuel |- _ => apply IHo in E; [destruct E|]
      | E : array_items f _ _ = OutOfFuel |- _ => apply IHa in E; [destruct E|]
      end; skip_ws_facts; simpl in *; lia.
  - intros acc s Hlt H. destruct s as [|c t]; [discriminate|].
    cbn [object_items] in H.
    repeat (first [discriminate | break_any]); length_facts; shrink_facts f;
      match goal with
      | E : scan_once f _ = OutOfFuel |- _ => apply IHs in E; [destruct E|]
      | E : object_items f _ _ = OutOfFuel |- _ => apply IHo in E; [destruct E|]
      end; skip_ws_facts; simpl in *; lia.
  - intros acc s Hlt H. cbn [array_items] in H.
    repeat (first [discriminate | break_any]); length_facts; shrink_facts f;
      match goal with
      | E : scan_once f _ = OutOfFuel |- _ => apply IHs in E; [destruct E|]
      | E : array_items f _ _ = OutOfFuel |- _ => apply IHa in E; [destruct E|]
      end; skip_ws_facts; simpl in *; lia.
Qed.

(** [json_loads] never runs out of fuel. *)
Lemma json_loads_fuel (s : str) :
  scan_once (S (2 * List.length s)) (skip_ws s) <> OutOfFuel.
Proof.
  apply (proj1 (scan_fuel _)). pose proof (skip_ws_length s). lia.
Qed.

(** One step of the comparison of two runs, with fuel [f] and with more
    fuel [f']: a recursive call that did not run out gives the same
    result in both. *)
Ltac fuel_step f f' IHs IHo IHa H :=
  match type of H with
  | scan_once f ?a <> OutOfFuel => rewrite (IHs a f' H) by lia; reflexivity
  | object_items f ?acc ?a <> OutOfFuel => rewrite (IHo acc a f' H) by lia; reflexivity
  | array_items f ?acc ?a <> OutOfFuel => rewrite (IHa acc a f' H) by lia; reflexivity
  | context [match scan_once f ?a with _ => _ end] =>
      let E := fresh "E" in
      assert (E : scan_once f a <> OutOfFuel)
        by (let K := fresh in intro K; rewrite K in H; now apply H);
      rewrite (IHs a f' E) by lia;
      destruct (scan_once f a) eqn:?; [| |now elim E]
  | context [match ?x with _ => _ end] => destruct x eqn:?
  | _ => reflexivity
  end.

(** A run that did not run out of fuel is the same with more fuel. *)
Lemma scan_more_fuel (f : nat) :
  (forall s f', scan_once f s <> OutOfFuel -> (f <= f')%nat ->
                scan_once f' s = scan_once f s) /\
  (forall acc s f', object_items f acc s <> OutOfFuel -> (f <= f')%nat ->
                    object_items f' acc s = object_items f acc s) /\
  (forall acc s f', array_items f acc s <> OutOfFuel -> (f <= f')%nat ->
                    array_items f' acc s = array_items f acc s).
Proof.
  induction f as [|f [IHs [IHo IHa]]].
  { repeat split; intros; exfalso; now apply H. }
  split; [|split].
  - intros s [|f'] H Hle; [lia|]. destruct s as [|c t]; [reflexivity|].
    cbn [scan_once] in *.
    repeat fuel_step f f' IHs IHo IHa H.
  - intros acc s [|f'] H Hle; [lia|]. destruct s as [|c t]; [reflexivity|].
    cbn [object_items] in *.
    repeat fuel_step f f' IHs IHo IHa H.
  - intros acc s [|f'] H Hle; [lia|].
    cbn [array_items] in *.
    repeat fuel_step f f' IHs IHo IHa H.
Qed.

(** More fuel than [json_loads] supplies changes nothing. *)
Lemma json_loads_any_fuel (s : str) (fuel : nat) :
  (2 * List.length s < fuel)%nat ->
  scan_once fuel (skip_ws s) = scan_once (S (2 * List.length s)) (skip_ws s).
Proof.
  intros H. apply (proj1 (scan_more_fuel _)); [apply json_loads_fuel | lia].
Qed.

(* ================================================================== *)
(** * The claims about [validate]'s sanitising steps *)
(* ================================================================== *)

(** The body [validate] returns for a parsed object. *)
Lemma sanitize_body (d : dict) (allowed : list str) (raw : str) :
  sanitize (VDict d) allowed raw =
  Return (VDict
    [ (lit "allowed", VBool (allowed_val d));
      (lit "reason", reason_val d);
      (lit "flags", VDict (flags d));
      (lit "suggestedTags", VList (suggested_tags d allowed));
      (lit "raw_llm", VDict [(lit "raw", VStr (prefix_slice 4000 raw))]) ]).
Proof. reflexivity. Qed.

Lemma keep_tag_spec (allowed : list str) (e : value) :
  keep_tag allowed e = true <-> exists t, e = VStr t /\ In t allowed.
Proof.
  destruct e; simpl; split; try discriminate;
    try (intros [t [H _]]; discriminate).
  - intros H. exists s. split; [reflexivity | now apply str_in_In].
  - intros [t [H Hin]]. injection H as ->. now apply str_in_In.
Qed.

(** C1 (tag-subset invariant).  For every parsed object, effective tag
    list and extracted text, [validate] returns a body whose
    [suggestedTags] field is a list in which every element is a string
    that belongs to the effective tags; it holds exactly the elements of
    the input list that are such strings, and it is empty when the input
    field is missing or is not a list. *)
Theorem C1_suggested_tags_subset (d : dict) (allowed : list str) (raw : str) :
  exists body l,
    sanitize (VDict d) allowed raw = Return (VDict body) /\
    dict_lookup body (lit "suggestedTags") = Some (VList l) /\
    Forall (fun e => exists t, e = VStr t /\ In t allowed) l /\
    (forall e, In e l <->
               In e (suggested_raw d) /\ exists t, e = VStr t /\ In t allowed) /\
    match dict_lookup d (lit "suggestedTags") with
    | Some (VList given) => suggested_raw d = given
    | _ => l = []
    end.
Proof.
  eexists. exists (suggested_tags d allowed).
  split; [apply sanitize_body|].
  split; [reflexivity|].
  split.
  - apply Forall_forall. intros e He. unfold suggested_tags in He.
    apply filter_In in He. now apply keep_tag_spec.
  - split.
    + intros e. unfold suggested_tags. rewrite filter_In.
      now rewrite keep_tag_spec.
    + unfold suggested_tags, suggested_raw, dict_get.
      destruct (dict_lookup d (lit "suggestedTags")) as [v|];
        [destruct v|]; reflexivity.
Qed.

Lemma flag_coerced (d : dict) (k : str) :
  flag (flags_val d) k = VBool (coerced_flag d k).
Proof.
  unfold flag, flags_val, coerced_flag, dict_get.
  destruct (dict_lookup d (lit "flags")) as [v|]; [destruct v|];
    try reflexivity.
  destruct (dict_lookup d0 k); reflexivity.
Qed.

(** C5 (flag completeness).  For every parsed object, the [flags] field
    of the returned body is an object with exactly the four keys
    inappropriate, spam, advertisement, mismatch, each holding a
    boolean: the truth value of the input entry, false when the entry is
    missing; a [flags] field that is missing or not an object counts as
    an empty object, and no other key of the input appears. *)
Theorem C5_flags_complete (d : dict) (allowed : list str) (raw : str) :
  exists body,
    sanitize (VDict d) allowed raw = Return (VDict body) /\
    dict_lookup body (lit "flags") =
      Some (VDict
        [ (lit "inappropriate", VBool (coerced_flag d (lit "inappropriate")));
          (lit "spam", VBool (coerced_flag d (lit "spam")));
          (lit "advertisement", VBool (coerced_flag d (lit "advertisement")));
          (lit "mismatch", VBool (coerced_flag d (lit "mismatch"))) ]).
Proof.
  eexists. split; [apply sanitize_body|].
  unfold flags. rewrite !flag_coerced. reflexivity.
Qed.

Example flags_of_loose_input :
  flags [ (lit "flags",
           VDict [ (lit "spam", VStr (lit "no")); (lit "extra", VBool true);
                   (lit "mismatch", VInt 0) ]) ]
  = [ (lit "inappropriate", VBool false); (lit "spam", VBool true);
      (lit "advertisement", VBool false); (lit "mismatch", VBool false) ].
Proof. reflexivity. Qed.

(** Re-sanitising a returned body gives the same body, for every input. *)
Lemma sanitize_idempotent (d : dict) (allowed : list str) (raw : str) :
  let body := [ (lit "allowed", VBool (allowed_val d));
                (lit "reason", reason_val d);
                (lit "flags", VDict (flags d));
                (lit "suggestedTags", VList (suggested_tags d allowed));
                (lit "raw_llm",
                 VDict [(lit "raw", VStr (prefix_slice 4000 raw))]) ] in
  sanitize (VDict body) allowed raw = Return (VDict body).
Proof.
  intros body. rewrite sanitize_body.
  assert (Ha : allowed_val body = allowed_val d) by reflexivity.
  assert (Hr : reason_val body = reason_val d) by reflexivity.
  assert (Hf : flags body = flags d) by reflexivity.
  assert (Hs : suggested_tags body allowed = suggested_tags d allowed).
  { change (filter (keep_tag allowed) (suggested_tags d allowed)
            = suggested_tags d allowed).
    unfold suggested_tags. apply filter_idempotent. }
  rewrite Ha, Hr, Hf, Hs. reflexivity.
Qed.

Lemma bool_entry_kept (given : dict) (k : str) :
  is_bool_entry given k = true ->
  Some (flag given k) = dict_lookup given k.
Proof.
  unfold is_bool_entry, flag, dict_get.
  destruct (dict_lookup given k) as [v|]; [destruct v|]; try discriminate.
  reflexivity.
Qed.

(** C4 (idempotent sanitising).  For every parsed object shaped like a
    decision, [validate] returns a body; sanitising that body again
    (same tags, same text) returns the same body; and the body agrees
    with the input on [allowed], [reason], [suggestedTags] and on the
    four entries of [flags]. *)
Theorem C4_sanitize_idempotent (d : dict) (allowed : list str) (raw : str)
  (Hshape : decision_shaped allowed d = true) :
  exists body out_flags,
    sanitize (VDict d) allowed raw = Return (VDict body) /\
    sanitize (VDict body) allowed raw = Return (VDict body) /\
    dict_lookup body (lit "allowed") = dict_lookup d (lit "allowed") /\
    dict_lookup body (lit "reason") = dict_lookup d (lit "reason") /\
    dict_lookup body (lit "suggestedTags") = dict_lookup d (lit "suggestedTags") /\
    dict_lookup body (lit "flags") = Some (VDict out_flags) /\
    forall k, In k flag_keys ->
      Some (dict_lookup out_flags k) =
      option_map (fun f => match f with
                           | VDict given => dict_lookup given k
                           | _ => None
                           end) (dict_lookup d (lit "flags")).
Proof.
  unfold decision_shaped in Hshape.
  apply andb_true_iff in Hshape. destruct Hshape as [Hshape Htags].
  apply andb_true_iff in Hshape. destruct Hshape as [Hshape Hflags].
  apply andb_true_iff in Hshape. destruct Hshape as [Hallowed Hreason].
  eexists. exists (flags d).
  split; [apply sanitize_body|].
  split; [apply (sanitize_idempotent d allowed raw)|].
  split.
  { unfold is_bool_entry in Hallowed. unfold allowed_val, dict_get.
    destruct (dict_lookup d (lit "allowed")) as [v|]; [destruct v|];
      try discriminate. reflexivity. }
  split.
  { unfold reason_val, dict_get.
    destruct (dict_lookup d (lit "reason")) as [v|]; [|discriminate].
    reflexivity. }
  split.
  { unfold suggested_tags, suggested_raw, dict_get.
    destruct (dict_lookup d (lit "suggestedTags")) as [v|]; [destruct v|];
      try discriminate.
    change (Some (VList (filter (keep_tag allowed) l)) = Some (VList l)).
    rewrite filter_all; [reflexivity|].
    intros x Hx. rewrite forallb_forall in Htags. now apply Htags. }
  split; [reflexivity|].
  intros k Hk. unfold flags, flags_val, dict_get.
  destruct (dict_lookup d (lit "flags")) as [v|]; [destruct v|];
    try discriminate.
  rename d0 into given. simpl option_map.
  rewrite forallb_forall in Hflags.
  assert (H4 : forall k', In k' flag_keys ->
                          Some (flag given k') = dict_lookup given k').
  { intros k' Hk'. apply bool_entry_kept. now apply Hflags. }
  f_equal.
  simpl in Hk.
  destruct Hk as [<-|[<-|[<-|[<-|[]]]]];
    (etransitivity; [|apply H4; simpl; tauto]); reflexivity.
Qed.

Lemma C4_sanitize_idempotent_witness :
  decision_shaped sample_tags sample_decision = true /\
  exists body,
    sanitize (VDict sample_decision) sample_tags (lit "raw text") =
      Return (VDict body) /\
    sanitize (VDict body) sample_tags (lit "raw text") = Return (VDict body).
Proof.
  split; [reflexivity|].
  destruct (C4_sanitize_idempotent sample_decision sample_tags (lit "raw text")
              eq_refl) as [body [_ [H1 [H2 _]]]].
  exists body. split; assumption.
Defined.

(* ================================================================== *)
(** * The claim about the effective tags *)
(* ================================================================== *)

Lemma tag_intersection_In (requested known : list str) (t : str) :
  In t (tag_intersection requested known) <-> In t requested /\ In t known.
Proof.
  unfold tag_intersection. rewrite filter_In. now rewrite str_in_In.
Qed.

Lemma filter_known_self (known : list str) :
  filter (fun t => str_in t known) known = known.
Proof. apply filter_all. intros x Hx. now apply str_in_In. Qed.

(** C8 (effective tags).  For every process-wide tag list and every
    request, the tags [validate] works with are the requested tags that
    the process-wide list knows (in the order requested), or the whole
    process-wide list when none is known or none was requested; a request
    with an empty list gets the whole process-wide list. *)
Theorem C8_effective_tags (known : list str) (requested : option (list str)) :
  allowed_tags known requested = effective_tags known requested /\
  (forall l t, In t (tag_intersection l known) <-> In t l /\ In t known) /\
  allowed_tags known (Some []) = known /\
  allowed_tags known None = known.
Proof.
  assert (Hself : forall r, match r with Some (_ :: _) => False | _ => True end ->
                            allowed_tags known r = known).
  { intros r Hr. unfold allowed_tags.
    assert (Hsrc : match r with Some ((_ :: _) as l) => l | _ => known end = known).
    { destruct r as [[|x l]|]; [reflexivity|contradiction|reflexivity]. }
    rewrite Hsrc, filter_known_self. destruct known; reflexivity. }
  split; [|split; [|split]].
  - destruct requested as [[|x l]|].
    + rewrite Hself by exact I. reflexivity.
    + unfold allowed_tags, effective_tags, tag_intersection.
      cbv beta iota zeta.
      generalize (filter (fun t => str_in t known) (x :: l)).
      intros [|y common]; reflexivity.
    + rewrite Hself by exact I. reflexivity.
  - intros l t. apply tag_intersection_In.
  - apply Hself. exact I.
  - apply Hself. exact I.
Qed.

Example effective_tags_default :
  allowed_tags DEFAULT_TAGS (Some [lit "Wifi"; lit "Parking"; lit "Other"])
  = [lit "Wifi"; lit "Other"] /\
  allowed_tags DEFAULT_TAGS (Some [lit "Parking"]) = DEFAULT_TAGS.
Proof. split; reflexivity. Qed.

(* ================================================================== *)
(** * The claims about [guess_mime_from_url] and the early exit of the
      recovery function *)
(* ================================================================== *)

(** C10 (MIME guess).  Whatever the interpreter's tables answer, the
    result starts with [image/]; it is [image/jpeg] when the guessed
    type is not an image type, when there is no guess, and for the empty
    URL. *)
Theorem C10_mime_is_image
  (guess_type : str -> option str * option str) (url : str) :
  startswith (guess_mime_from_url guess_type url) (lit "image/") = true /\
  (forall mime, fst (guess_type url) = Some mime ->
                startswith mime (lit "image/") = false ->
                guess_mime_from_url guess_type url = lit "image/jpeg") /\
  (fst (guess_type url) = None ->
   guess_mime_from_url guess_type url = lit "image/jpeg") /\
  guess_mime_from_url guess_type [] = lit "image/jpeg".
Proof.
  unfold guess_mime_from_url.
  destruct url as [|c url]; [repeat split; reflexivity|].
  destruct (fst (guess_type (c :: url))) as [mime|].
  - destruct mime as [|m mime].
    + repeat split; reflexivity.
    + destruct (startswith (m :: mime) (lit "image/")) eqn:E.
      * repeat split; try assumption; try discriminate.
        intros mime' H H'. injection H as <-. congruence.
      * repeat split; reflexivity.
  - repeat split; reflexivity.
Qed.

Lemma C10_mime_is_image_witness :
  fst (sample_guess_type (lit "https://host/report.pdf"))
    = Some (lit "application/pdf") /\
  startswith (lit "application/pdf") (lit "image/") = false /\
  guess_mime_from_url sample_guess_type (lit "https://host/report.pdf")
    = lit "image/jpeg" /\
  fst (sample_guess_type (lit "https://host/photo.bin")) = None /\
  guess_mime_from_url sample_guess_type (lit "https://host/photo.bin")
    = lit "image/jpeg".
Proof.
  split; [reflexivity|]. split; [reflexivity|]. split.
  - apply (proj1 (proj2 (C10_mime_is_image sample_guess_type
                           (lit "https://host/report.pdf")))
             (lit "application/pdf")); reflexivity.
  - split; [reflexivity|].
    apply (proj1 (proj2 (proj2 (C10_mime_is_image sample_guess_type
                                  (lit "https://host/photo.bin")))));
      reflexivity.
Defined.

Example mime_png :
  guess_mime_from_url sample_guess_type (lit "https://host/photo.png")
  = lit "image/png".
Proof. reflexivity. Qed.

(** C9 (empty or non-string input).  For the empty string and for every
    argument that is not a string, the function raises the [ValueError]
    with the message "Empty or non-string model output"; nothing of the
    recovery steps takes part (the result is the same for every name
    table and every entity substitution). *)
Theorem C9_empty_or_non_string
  (getcode : bytes -> option char) (charref_sub : str -> option str)
  (text : pyobj) (Htext : text = PStr [] \/ is_str text = false) :
  clean_model_text_and_extract_json getcode charref_sub text
    = inl Empty_or_non_string /\
  ValueError_message Empty_or_non_string
    = lit "Empty or non-string model output".
Proof.
  split; [|reflexivity].
  destruct Htext as [->|Hns]; [reflexivity|].
  destruct text; try reflexivity. discriminate.
Qed.

Lemma C9_empty_or_non_string_witness :
  (PInt 5 = PStr [] \/ is_str (PInt 5) = false) /\
  clean_model_text_and_extract_json (fun _ => None) (fun s => Some s) (PInt 5)
    = inl Empty_or_non_string /\
  clean_model_text_and_extract_json (fun _ => None) (fun s => Some s) (PStr [])
    = inl Empty_or_non_string.
Proof.
  split; [right; reflexivity|].
  split.
  - apply (C9_empty_or_non_string (fun _ => None) (fun s => Some s) (PInt 5)).
    right. reflexivity.
  - apply (C9_empty_or_non_string (fun _ => None) (fun s => Some s) (PStr [])).
    left. reflexivity.
Defined.

(* ================================================================== *)
(** * The brace scan on a nested object *)
(* ================================================================== *)



Lemma firstn_prefix (a b : str) :
  firstn (List.length (a ++ b) - List.length b) (a ++ b) = a.
Proof.
  rewrite length_app.
  replace (List.length a + List.length b - List.length b)%nat
    with (List.length a + 0)%nat by lia.
  rewrite firstn_app_2. simpl. apply app_nil_r.
Qed.



(** C2 (brace-scan fallback).  On the text of the claim the embedded
    object is well-formed JSON, but the brace scan selects the span from
    the first opening brace to the first closing brace, which ends inside
    the object (after its nested [flags] object); that candidate does not
    parse, and the function raises the [ValueError] for a candidate that
    failed to parse instead of returning the embedded object. *)
Theorem C2_brace_scan_stops_at_first_closing_brace :
  json_loads embedded_text = Some embedded_object /\
  re_search brace_pattern prose_text
    = Some (qlit "{'allowed': true, 'flags': {'spam': false}") /\
  forall getcode charref_sub,
    clean_model_text_and_extract_json getcode charref_sub (PStr prose_text)
    = inl Failed_to_parse_candidate.
Proof.
  split; [vm_compute; reflexivity|].
  split; [vm_compute; reflexivity|].
  intros getcode charref_sub. vm_compute. reflexivity.
Qed.

(* ================================================================== *)
(** * The extractor on a first candidate whose text is not a string *)
(* ================================================================== *)

(** C6 (extractor).  On a response whose first candidate is the
    dictionary [{"text": 123}], the first strategy returns the number 123
    as it is: the function returns, but not a string. *)
Theorem C6_candidate_text_returned_unchecked (builtin_str : pyobj -> str) :
  extract_text_from_response builtin_str response_with_numeric_text
    = Returns (PInt 123) /\
  is_str (PInt 123) = false.
Proof. split; reflexivity. Qed.

(* ================================================================== *)
(** * Where the extractor can return something that is not a string *)
(* ================================================================== *)

Section ExtractShape.

Variable builtin_str : pyobj -> str.

Lemma scan_keys_str (part : list (str * pyobj)) (keys : list str) (v : pyobj) :
  scan_keys part keys = Some v -> is_str v = true.
Proof.
  induction keys as [|key keys IH]; simpl; [discriminate|].
  destruct (assoc key part) as [[| | | |t| | | |]|]; try exact IH.
  destruct (strip t); [exact IH|]. intros H. now injection H as <-.
Qed.

Lemma scan_parts_str (content : list pyobj) (v : pyobj) :
  scan_parts content = Return_ v -> is_str v = true.
Proof.
  induction content as [|part rest IH]; cbn [scan_parts]; [discriminate|].
  destruct part as [| | | | | | |d|attrs r t];
    try (unfold getattr, bind, py_or; cbn [truthy]; exact IH).
  - destruct (scan_keys d [lit "text"; lit "plain_text"; lit "content"])
      as [w|] eqn:E; [|exact IH].
    intros H. injection H as <-. now apply scan_keys_str in E.
  - unfold bind.
    destruct (getattr (PInstance attrs r t) (lit "text")) as [a|]; [|discriminate].
    destruct (py_or a _) as [txt|]; [|discriminate].
    destruct txt; try exact IH.
    destruct (strip s); [exact IH|]. intros H. now injection H as <-.
Qed.

Lemma strategy_outputs_str (response v : pyobj) :
  strategy_outputs builtin_str response = Return_ v -> is_str v = true.
Proof.
  unfold strategy_outputs, bind.
  destruct (getattr response (lit "outputs")) as [outputs|]; [|discriminate].
  destruct (if truthy outputs then as_sequence outputs else None)
    as [[|out0 ?]|]; try discriminate.
  destruct (getattr out0 (lit "content")) as [a|]; [|discriminate].
  destruct (py_or a _) as [content|]; [|discriminate].
  destruct (match as_sequence content with
            | Some parts => scan_parts parts
            | None => Go tt
            end) as [u|w|msg] eqn:E.
  - destruct (py_str builtin_str out0); [|discriminate].
    intros H. now injection H as <-.
  - intros H. injection H as <-.
    destruct (as_sequence content); [|discriminate].
    now apply scan_parts_str in E.
  - discriminate.
Qed.

Lemma strategy_response_str (response v : pyobj) :
  strategy_response builtin_str response = Return_ v -> is_str v = true.
Proof.
  unfold strategy_response, bind.
  destruct (getattr response (lit "response")) as [a|]; [|discriminate].
  destruct (py_or a _) as [maybe|]; [|discriminate].
  destruct (truthy maybe); [|discriminate].
  destruct (py_str builtin_str maybe) as [s|]; [|discriminate].
  destruct s; [discriminate|]. intros H. now injection H as <-.
Qed.

(** Apart from the text of the first candidate, which is returned as
    it is, everything the extractor returns is a string; and it raises
    only when [str()] of the whole response raises. *)
Lemma extract_text_shape (response : pyobj) :
  match extract_text_from_response builtin_str response with
  | Returns v =>
      is_str v = true \/ strategy_candidates response = Return_ v
  | Raises msg => py_str builtin_str response = Raises msg
  end.
Proof.
  unfold extract_text_from_response, try_pass.
  destruct (strategy_candidates response) as [u|v|msg]; [|now right|];
    (destruct (strategy_outputs builtin_str response) as [u2|v2|msg2] eqn:E2;
     [|left; now apply strategy_outputs_str in E2|]);
    (destruct (strategy_response builtin_str response) as [u3|v3|msg3] eqn:E3;
     [|left; now apply strategy_response_str in E3|]);
    (destruct (py_str builtin_str response); [now left | reflexivity]).
Qed.

End ExtractShape.

(* ================================================================== *)
(** * The claim about escape normalisation *)
(* ================================================================== *)

Lemma escape_markers_two_tests (s : str) :
  escape_markers s = contains s [92; 34] || contains s [92; 92; 110].
Proof.
  unfold escape_markers.
  destruct (contains s [92; 34]) eqn:E1; [reflexivity|].
  destruct (contains s [92; 92; 110]); [reflexivity|]. simpl.
  destruct (contains s [92; 92; 92; 34]) eqn:E3; [|reflexivity].
  apply (contains_tail_of_pattern s [92; 92] [92; 34]) in E3. congruence.
Qed.

(** C3 (escape normalisation), amended.  For every text that reaches the
    step: when it contains a backslash followed by a double quote, or
    two backslashes followed by n, one unescape pass is made, the first
    and last characters of the result are dropped when it starts and
    ends with a double quote, and the text is kept as it was when
    unescaping raises; any other text is left unchanged. *)
Theorem C3_escape_normalisation (getcode : bytes -> option char) (s : str) :
  unescape_stage getcode s = normalisation_amended getcode s.
Proof.
  unfold unescape_stage, normalisation_amended, unescaped_and_unquoted.
  now rewrite escape_markers_two_tests.
Qed.

(** A text with a backslash n and none of the tested markers: the step
    leaves it alone and the function returns the parsed object, whereas
    the step as the claim words it would turn the escape into a line
    break, after which the text does not parse any more. *)
Lemma C3_counterexample :
  contains json_with_newline_escape [92; 110] = true /\
  unescape_stage (fun _ => None) json_with_newline_escape
    = json_with_newline_escape /\
  normalisation_as_claimed (fun _ => None) json_with_newline_escape
    = qlit "{'a': 'x" ++ [10] ++ qlit "y'}" /\
  clean_model_text_and_extract_json (fun _ => None) (fun s => Some s)
    (PStr json_with_newline_escape)
    = inr (VDict [(lit "a", VStr (lit "x" ++ [10] ++ lit "y"))]) /\
  json_loads (normalisation_as_claimed (fun _ => None) json_with_newline_escape)
    = None.
Proof. repeat split; vm_compute; reflexivity. Qed.

(* ================================================================== *)
(** * What a search can return: characters of the searched text *)
(* ================================================================== *)

Lemma suffix_of_refl (s : str) : suffix_of s s.
Proof. now exists []. Qed.

Lemma suffix_of_cons (c : char) (s' s : str) :
  suffix_of s' s -> suffix_of s' (c :: s).
Proof. intros [p ->]. now exists (c :: p). Qed.

Lemma suffix_of_trans (a b c : str) :
  suffix_of a b -> suffix_of b c -> suffix_of a c.
Proof. intros [p ->] [q ->]. exists (q ++ p). now rewrite app_assoc. Qed.

Lemma suffix_of_incl (s' s : str) : suffix_of s' s -> incl s' s.
Proof. intros [p ->]. now apply incl_appr, incl_refl. Qed.

Lemma star_greedy_inv {A} (p : char -> bool) (s : str) (k : str -> option A) x :
  star_greedy p s k = Some x -> exists s', k s' = Some x /\ suffix_of s' s.
Proof.
  induction s as [|c t IH]; simpl.
  - intros H. exists []. split; [assumption | apply suffix_of_refl].
  - destruct (p c).
    + destruct (star_greedy p t k) as [y|] eqn:E.
      * intros H. injection H as <-.
        destruct (IH eq_refl) as [s' [Hk Hs]].
        exists s'. split; [assumption | now apply suffix_of_cons].
      * intros H. exists (c :: t). split; [assumption | apply suffix_of_refl].
    + intros H. exists (c :: t). split; [assumption | apply suffix_of_refl].
Qed.

Lemma star_lazy_inv {A} (p : char -> bool) (s : str) (k : str -> option A) x :
  star_lazy p s k = Some x -> exists s', k s' = Some x /\ suffix_of s' s.
Proof.
  induction s as [|c t IH]; simpl.
  - destruct (k []) eqn:E; [|discriminate].
    intros H. injection H as <-. exists []. split; [assumption | apply suffix_of_refl].
  - destruct (k (c :: t)) eqn:E.
    + intros H. injection H as <-.
      exists (c :: t). split; [assumption | apply suffix_of_refl].
    + destruct (p c); [|discriminate].
      intros H. destruct (IH H) as [s' [Hk Hs]].
      exists s'. split; [assumption | now apply suffix_of_cons].
Qed.

(** A successful match hands the continuation a suffix of the text, and
    a capture that is the one it started with or a part of the text. *)
Lemma rmatch_inv (r : regex) :
  forall {A} (s : str) (cap : option str) (k : str -> option str -> option A) x,
    rmatch r s cap k = Some x ->
    exists s' cap',
      k s' cap' = Some x /\ suffix_of s' s /\
      (cap' = cap \/ exists g, cap' = Some g /\ incl g s).
Proof.
  induction r as [p | a IHa b IHb | a IHa | p | p | a IHa];
    intros A s cap k x H; simpl in H.
  - destruct s as [|c t]; [discriminate|].
    destruct (p c); [|discriminate].
    exists t, cap. repeat split; [assumption | now exists [c] | now left].
  - apply IHa in H. destruct H as [s1 [cap1 [H [Hs1 Hc1]]]].
    apply IHb in H. destruct H as [s2 [cap2 [H [Hs2 Hc2]]]].
    exists s2, cap2. split; [assumption|].
    split; [now apply (suffix_of_trans s2 s1 s)|].
    destruct Hc2 as [-> | [g [-> Hg]]]; [assumption|].
    right. exists g. split; [reflexivity|].
    intros c Hc. apply (suffix_of_incl s1 s Hs1). now apply Hg.
  - destruct (rmatch a s cap k) as [y|] eqn:E.
    + injection H as <-. now apply IHa.
    + exists s, cap. repeat split; [assumption | apply suffix_of_refl | now left].
  - apply star_greedy_inv in H. destruct H as [s' [H Hs]].
    exists s', cap. repeat split; [assumption | assumption | now left].
  - apply star_lazy_inv in H. destruct H as [s' [H Hs]].
    exists s', cap. repeat split; [assumption | assumption | now left].
  - apply IHa in H. destruct H as [s1 [cap1 [H [Hs1 _]]]].
    exists s1, (Some (firstn (List.length s - List.length s1) s)).
    split; [assumption|]. split; [assumption|].
    right. eexists. split; [reflexivity|].
    intros c Hc. rewrite <- (firstn_skipn (List.length s - List.length s1) s).
    apply in_or_app. now left.
Qed.

Lemma re_search_incl (r : regex) (s g : str) :
  re_search r s = Some g -> incl g s.
Proof.
  induction s as [|c t IH]; simpl;
    destruct (rmatch r _ None (fun _ cap => Some (group1 cap))) as [g0|] eqn:E;
    intros H; try discriminate.
  - injection H as <-. apply rmatch_inv in E.
    destruct E as [s' [cap' [E [_ [-> | [g [-> Hg]]]]]]];
      injection E as <-; [intros x [] | exact Hg].
  - injection H as <-. apply rmatch_inv in E.
    destruct E as [s' [cap' [E [_ [-> | [g [-> Hg]]]]]]];
      injection E as <-; [intros x [] | exact Hg].
  - intros x Hx. right. now apply IH.
Qed.

Lemma lstrip_suffix (s : str) : suffix_of (lstrip s) s.
Proof.
  induction s as [|c t IH]; simpl; [apply suffix_of_refl|].
  destruct (isspace c); [now apply suffix_of_cons | apply suffix_of_refl].
Qed.

Lemma strip_incl (s : str) : incl (strip s) s.
Proof.
  unfold strip, rstrip. intros x Hx.
  apply in_rev in Hx. apply (suffix_of_incl _ _ (lstrip_suffix _)) in Hx.
  apply in_rev in Hx. now apply (suffix_of_incl _ _ (lstrip_suffix s)).
Qed.

Lemma strip_fence_incl (text : str) : incl (strip_fence text) text.
Proof.
  unfold strip_fence.
  destruct (re_search fence_pattern (strip text)) as [g|] eqn:E.
  - intros x Hx. apply strip_incl in Hx. apply re_search_incl in E.
    now apply strip_incl, E.
  - apply strip_incl.
Qed.

Lemma contains_single_false (s : str) (c : char) :
  contains s [c] = false <-> ~ In c s.
Proof.
  rewrite <- contains_single. destruct (contains s [c]); split; congruence.
Qed.

(** Without an opening brace the brace pattern matches nowhere. *)
Lemma brace_search_none (s : str) :
  contains s [123] = false -> re_search brace_pattern s = None.
Proof.
  rewrite contains_single_false.
  induction s as [|c t IH]; intros H; [reflexivity|].
  assert (Hc : chr_is 123 c = false).
  { unfold chr_is. apply N.eqb_neq. intros ->. apply H. now left. }
  simpl. rewrite Hc. apply IH. intros Hin. apply H. now right.
Qed.

(** Without a backslash the escape step does nothing. *)
Lemma unescape_stage_no_backslash getcode (s : str) :
  contains s [92] = false -> unescape_stage getcode s = s.
Proof.
  rewrite contains_single_false. intros H.
  unfold unescape_stage. rewrite escape_markers_two_tests.
  destruct (contains s [92; 34]) eqn:E1.
  { exfalso. apply H. apply (contains_In s [92; 34]); [assumption | now left]. }
  destruct (contains s [92; 92; 110]) eqn:E2.
  { exfalso. apply H. apply (contains_In s [92; 92; 110]); [assumption | now left]. }
  reflexivity.
Qed.

(** A text with neither an opening brace nor a backslash reaches the
    parser without an opening brace. *)
Lemma normalised_without_brace getcode (text : str) :
  contains text [123] = false -> contains text [92] = false ->
  contains (unescape_stage getcode (strip_fence text)) [123] = false.
Proof.
  rewrite !contains_single_false. intros Hb Hs.
  rewrite unescape_stage_no_backslash.
  - intros H. apply Hb. now apply strip_fence_incl.
  - apply contains_single_false. intros H. apply Hs. now apply strip_fence_incl.
Qed.

(* ================================================================== *)
(** * The claim about texts without an object *)
(* ================================================================== *)

(** When the text that reaches the parser has no opening brace and does
    not parse, the function raises, and [validate] quotes the text. *)
Lemma no_brace_no_json
  (builtin_str : pyobj -> str) (getcode : bytes -> option char)
  (charref_sub : str -> option str) (allowed : list str) (text : str) :
  contains (unescape_stage getcode (strip_fence text)) [123] = false ->
  json_loads (unescape_stage getcode (strip_fence text)) = None ->
  clean_model_text_and_extract_json getcode charref_sub (PStr text)
    = inl (match text with [] => Empty_or_non_string | _ => Unable_to_extract end)
  /\
  validate_text builtin_str getcode charref_sub allowed (PStr text)
    = HTTPException 500 (non_json_detail text).
Proof.
  intros Hbrace Hjson.
  assert (H : clean_model_text_and_extract_json getcode charref_sub (PStr text)
              = inl (match text with
                     | [] => Empty_or_non_string
                     | _ => Unable_to_extract
                     end)).
  { destruct text as [|c t]; [reflexivity|].
    unfold clean_model_text_and_extract_json. rewrite Hjson.
    unfold brace_scan. now rewrite brace_search_none. }
  split; [exact H|].
  unfold validate_text. now rewrite H.
Qed.

(** The same for an input text that has neither an opening brace nor a
    backslash and that, trimmed and taken out of its fence, does not
    parse. *)
Lemma no_brace_no_backslash_no_json
  (builtin_str : pyobj -> str) (getcode : bytes -> option char)
  (charref_sub : str -> option str) (allowed : list str) (text : str) :
  contains text [123] = false -> contains text [92] = false ->
  json_loads (strip_fence text) = None ->
  (exists e, clean_model_text_and_extract_json getcode charref_sub (PStr text)
             = inl e) /\
  validate_text builtin_str getcode charref_sub allowed (PStr text)
    = HTTPException 500 (non_json_detail text).
Proof.
  intros Hb Hs Hj.
  destruct (no_brace_no_json builtin_str getcode charref_sub allowed text)
    as [H1 H2].
  - now apply normalised_without_brace.
  - rewrite unescape_stage_no_backslash; [assumption|].
    apply contains_single_false. intros H.
    apply contains_single_false in Hs. apply Hs. now apply strip_fence_incl.
  - split; [eexists; exact H1 | exact H2].
Qed.

(** C7 (unrecoverable input), amended.  For every input text: when the
    text that reaches the parser (the input trimmed, taken out of its
    fence and escape-normalised) contains no opening brace and is not
    itself valid JSON, the recovery function raises a [ValueError], and
    [validate] answers with status 500 and a detail that ends with the
    first 1000 characters of the input text. *)
Theorem C7_no_object_in_text
  (builtin_str : pyobj -> str) (getcode : bytes -> option char)
  (charref_sub : str -> option str) (allowed : list str) (text : str)
  (Hbrace : contains (unescape_stage getcode (strip_fence text)) [123] = false)
  (Hjson : json_loads (unescape_stage getcode (strip_fence text)) = None) :
  (exists e, clean_model_text_and_extract_json getcode charref_sub (PStr text)
             = inl e) /\
  validate_text builtin_str getcode charref_sub allowed (PStr text)
    = HTTPException 500 (non_json_detail text).
Proof.
  destruct (no_brace_no_json builtin_str getcode charref_sub allowed text
              Hbrace Hjson) as [H1 H2].
  split; [eexists; exact H1 | exact H2].
Qed.

Lemma C7_no_object_in_text_witness :
  contains (unescape_stage (fun _ => None) (strip_fence refusal_text)) [123]
    = false /\
  json_loads (unescape_stage (fun _ => None) (strip_fence refusal_text))
    = None /\
  (exists e, clean_model_text_and_extract_json (fun _ => None)
               (fun s => Some s) (PStr refusal_text) = inl e) /\
  validate_text (fun _ => []) (fun _ => None) (fun s => Some s) DEFAULT_TAGS
    (PStr refusal_text)
    = HTTPException 500
        (lit "LLM returned non-JSON output. Raw (truncated): I cannot comply with this request.").
Proof.
  split; [vm_compute; reflexivity|].
  split; [vm_compute; reflexivity|].
  apply (C7_no_object_in_text (fun _ => []) (fun _ => None) (fun s => Some s)
           DEFAULT_TAGS refusal_text); vm_compute; reflexivity.
Defined.

(** Two texts without an opening brace on which the function does not
    raise: [true] is valid JSON and is returned as parsed, after which
    [validate] answers 500 with a detail that quotes nothing of the text;
    and in a text with escapes the unescape pass can produce the brace
    ([\x7b]), so that an object is found and returned. *)
Lemma C7_counterexample :
  contains (lit "true") [123] = false /\
  clean_model_text_and_extract_json (fun _ => None) (fun s => Some s)
    (PStr (lit "true")) = inr (VBool true) /\
  validate_text (fun _ => []) (fun _ => None) (fun s => Some s) DEFAULT_TAGS
    (PStr (lit "true"))
    = HTTPException 500 (lit "LLM returned JSON that is not an object") /\
  contains (qlit "\'\x7b\'a\':1}") [123] = false /\
  clean_model_text_and_extract_json (fun _ => None) (fun s => Some s)
    (PStr (qlit "\'\x7b\'a\':1}")) = inr (VDict [(lit "a", VInt 1)]).
Proof. repeat split; vm_compute; reflexivity. Qed.

(* ================================================================== *)
(** * Two more inputs: a fenced object, and a quoted, escaped object *)
(* ================================================================== *)

Example recovery_of_fenced_text :
  clean_model_text_and_extract_json (fun _ => None) (fun s => Some s)
    (PStr fenced_text)
  = inr (VDict [ (lit "allowed", VBool true); (lit "flags", VDict []);
                 (lit "suggestedTags", VList []) ]).
Proof. vm_compute. reflexivity. Qed.

Example recovery_of_quoted_escaped_text :
  clean_model_text_and_extract_json (fun _ => None) (fun s => Some s)
    (PStr quoted_escaped_text)
  = inr (VDict [ (lit "allowed", VBool false);
                 (lit "reason", VStr (lit "uncertain"));
                 (lit "flags", VDict []); (lit "suggestedTags", VList []) ]).
Proof. vm_compute. reflexivity. Qed.

(* ================================================================== *)
(** * More about the effective tags *)
(* ================================================================== *)

(** The two ways the effective tags come about. *)
Lemma allowed_tags_cases (known : list str) (requested : option (list str)) :
  allowed_tags known requested = known \/
  (exists l, requested = Some l /\
             allowed_tags known requested = tag_intersection l known /\
             tag_intersection l known <> []).
Proof.
  unfold allowed_tags, tag_intersection.
  destruct requested as [[|x l]|]; cbv beta iota zeta.
  - left. rewrite filter_known_self. now destruct known.
  - destruct (filter (fun t => str_in t known) (x :: l)) as [|y r] eqn:E.
    + now left.
    + right. exists (x :: l). rewrite E. repeat split. discriminate.
  - left. rewrite filter_known_self. now destruct known.
Qed.

Lemma allowed_tags_subset (known : list str) (requested : option (list str)) :
  Forall (fun t => In t known) (allowed_tags known requested).
Proof.
  destruct (allowed_tags_cases known requested) as [-> | [l [_ [-> _]]]].
  - now apply Forall_forall.
  - apply Forall_forall. intros t Ht. now apply tag_intersection_In in Ht.
Qed.

Lemma allowed_tags_empty (known : list str) (requested : option (list str)) :
  allowed_tags known requested = [] -> known = [].
Proof.
  destruct (allowed_tags_cases known requested) as [-> | [l [_ [-> Hne]]]];
    [trivial | contradiction].
Qed.

(** X1.  Whatever the caller asks for, every effective tag is one of the
    process-wide tags, and the effective tags are empty only when the
    process-wide list is empty. *)
Theorem allowed_tags_known (known : list str) (requested : option (list str)) :
  Forall (fun t => In t known) (allowed_tags known requested) /\
  (known = [] \/ exists t rest, allowed_tags known requested = t :: rest).
Proof.
  split; [apply allowed_tags_subset|].
  destruct (allowed_tags known requested) as [|t rest] eqn:E.
  - left. now apply (allowed_tags_empty known requested).
  - right. now exists t, rest.
Qed.

(** X2.  Normalising the effective tags of a request again changes
    nothing: a client that sends back the tags it was served under gets
    the same tags. *)
Theorem allowed_tags_idempotent (known : list str)
  (requested : option (list str)) :
  allowed_tags known (Some (allowed_tags known requested))
  = allowed_tags known requested.
Proof.
  pose proof (allowed_tags_subset known requested) as Hin.
  pose proof (allowed_tags_empty known requested) as Hne.
  rewrite Forall_forall in Hin.
  destruct (allowed_tags known requested) as [|x l] eqn:E.
  - now rewrite (Hne eq_refl).
  - unfold allowed_tags at 1. cbv beta iota zeta.
    rewrite filter_all; [reflexivity|].
    intros t Ht. apply str_in_In. now apply Hin.
Qed.

(* ================================================================== *)
(** * The answers of [validate] *)
(* ================================================================== *)

Lemma kept_tags_are_strings (allowed : list str) (l : list value) :
  exists tags, filter (keep_tag allowed) l = map VStr tags /\
               Forall (fun t => In t allowed) tags.
Proof.
  induction l as [|e l [tags [IH1 IH2]]]; [now exists []|].
  simpl. destruct (keep_tag allowed e) eqn:E; [|now exists tags].
  apply keep_tag_spec in E. destruct E as [t [-> Ht]].
  exists (t :: tags). split; [simpl; now f_equal | now constructor].
Qed.

Lemma sanitize_shape (v : value) (allowed : list str) (raw : str) :
  match sanitize v allowed raw with
  | HTTPException status _ => status = 500
  | Return body => decision_body allowed body
  end.
Proof.
  destruct v; try reflexivity.
  rewrite sanitize_body.
  destruct (kept_tags_are_strings allowed (suggested_raw d)) as [tags [Ht Hin]].
  unfold decision_body, flags, flag.
  do 7 eexists. exists (prefix_slice 4000 raw).
  split; [unfold suggested_tags; rewrite Ht; reflexivity|].
  split; [exact Hin|]. unfold prefix_slice. apply firstn_le_length.
Qed.

Lemma validate_response_shape
  (builtin_str : pyobj -> str) (getcode : bytes -> option char)
  (charref_sub : str -> option str) (allowed : list str) (resp : pyobj) :
  match validate_response builtin_str getcode charref_sub allowed resp with
  | HTTPException status _ => status = 500
  | Return body => decision_body allowed body
  end.
Proof.
  unfold validate_response, validate_text, llm_check_failed.
  destruct (extract_text_from_response builtin_str resp) as [text_out|];
    [|reflexivity].
  destruct (clean_model_text_and_extract_json getcode charref_sub text_out);
    destruct (py_str builtin_str text_out); try reflexivity.
  apply sanitize_shape.
Qed.


Lemma handle_status (e : raised) :
  exists detail, handle e = HTTPException 500 detail.
Proof. destruct e; eexists; reflexivity. Qed.

(** [validate] for a configured backend, step by step. *)
Lemma validate_steps (env : environment) (req : CheckRequest) :
  GENAI_CONFIGURED env = true ->
  validate env req =
  match image_parts env req with
  | None => HTTPException 400 (lit "Could not fetch image for validation")
  | Some parts =>
      match call_model env
              (parts ++ [TextPart (build_prompt (description req) (imageUrl req)
                                     (allowed_tags (PREDEFINED_TAGS env)
                                                   (allowedTags req)))]) with
      | inl e => handle e
      | inr resp =>
          validate_response (builtin_str env) (unicodedata_getcode env)
            (charref_sub env)
            (allowed_tags (PREDEFINED_TAGS env) (allowedTags req)) resp
      end
  end.
Proof. intros H. unfold validate. now rewrite H. Qed.

Lemma fetch_failed_parts (env : environment) (req : CheckRequest) :
  fetch_failed env req
  = match image_parts env req with None => true | Some _ => false end.
Proof.
  unfold fetch_failed, image_parts.
  destruct (imageUrl req) as [url|]; [|reflexivity].
  now destruct (requests_get env url).
Qed.


Lemma validate_returns (env : environment) (req : CheckRequest) (body : value) :
  validate env req = Return body ->
  GENAI_CONFIGURED env = true /\ fetch_failed env req = false /\
  decision_body (allowed_tags (PREDEFINED_TAGS env) (allowedTags req)) body.
Proof.
  intros H. destruct (GENAI_CONFIGURED env) eqn:Hc.
  - rewrite validate_steps in H by assumption. rewrite fetch_failed_parts.
    destruct (image_parts env req) as [parts|]; [|discriminate].
    destruct (call_model env _) as [e|resp].
    + destruct (handle_status e) as [d Hd]. rewrite Hd in H. discriminate.
    + pose proof (validate_response_shape (builtin_str env)
                    (unicodedata_getcode env) (charref_sub env)
                    (allowed_tags (PREDEFINED_TAGS env) (allowedTags req)) resp)
        as Hs.
      rewrite H in Hs. now repeat split.
  - unfold validate in H. rewrite Hc in H. discriminate.
Qed.




(** X5.  What is sent to the model besides the prompt: nothing when the
    request has no image URL; otherwise one part with the bytes as they
    were fetched and a MIME type that starts with [image/]; and nothing
    is sent at all when the fetch fails. *)
Theorem image_parts_sent (env : environment) (req : CheckRequest) :
  match image_parts env req with
  | None => exists url, imageUrl req = Some url /\ requests_get env url = None
  | Some parts =>
      match imageUrl req with
      | None => parts = []
      | Some url =>
          exists img_bytes mime,
            requests_get env url = Some img_bytes /\
            startswith mime (lit "image/") = true /\
            (parts = [SdkPart mime img_bytes] \/
             parts = [RawImage mime img_bytes])
      end
  end.
Proof.
  unfold image_parts. destruct (imageUrl req) as [url|]; [|reflexivity].
  destruct (requests_get env url) as [img_bytes|] eqn:E; [|now exists url].
  exists img_bytes, (guess_mime_from_url (mimetypes_guess_type env) url).
  split; [reflexivity|]. split.
  - unfold guess_mime_from_url. destruct url as [|c url]; [reflexivity|].
    destruct (fst (mimetypes_guess_type env (c :: url))) as [[|m mime]|];
      try reflexivity.
    destruct (startswith (m :: mime) (lit "image/")) eqn:Em;
      [exact Em | reflexivity].
  - unfold image_part. destruct (part_from_bytes env img_bytes _);
      [now left | now right].
Qed.

(* ================================================================== *)
(** * What the sanitising step reads *)
(* ================================================================== *)

(** X6.  The returned body depends on the parsed object only through
    its entries [allowed], [reason], [flags] and [suggestedTags]: any
    other key that the model adds never reaches the client. *)
Theorem sanitize_reads_four_keys (d d' : dict) (allowed : list str)
  (raw : str) (Hsame : same_decision_keys d d') :
  sanitize (VDict d) allowed raw = sanitize (VDict d') allowed raw.
Proof.
  destruct Hsame as [H1 [H2 [H3 H4]]].
  rewrite !sanitize_body.
  unfold allowed_val, reason_val, flags, flags_val, suggested_tags,
    suggested_raw, dict_get.
  now rewrite H1, H2, H3, H4.
Qed.

Lemma sanitize_reads_four_keys_witness :
  same_decision_keys sample_decision
    (sample_decision ++ [(lit "confidence", VInt 1)]) /\
  sanitize (VDict sample_decision) sample_tags []
  = sanitize (VDict (sample_decision ++ [(lit "confidence", VInt 1)]))
      sample_tags [].
Proof.
  assert (H : same_decision_keys sample_decision
                (sample_decision ++ [(lit "confidence", VInt 1)])).
  { repeat split. }
  split; [exact H|].
  exact (sanitize_reads_four_keys _ _ sample_tags [] H).
Defined.

(* ================================================================== *)
(** * Loading the tags *)
(* ================================================================== *)




(** X8.  Whenever the file gives no tag list (no file, unreadable, not
    JSON, or JSON of another shape), the process-wide tags are the
    nineteen built-in ones: start-up never fails on the tags file. *)
Theorem load_tags_fallback (value_str : value -> str)
  (tag_file : option (outcome str)) (Hnone : no_tag_list tag_file = true) :
  load_tags value_str tag_file = DEFAULT_TAGS /\
  List.length (load_tags value_str tag_file) = 19%nat.
Proof.
  assert (H : load_tags value_str tag_file = DEFAULT_TAGS).
  { unfold load_tags, no_tag_list in *.
    destruct tag_file as [[text|msg]|]; try reflexivity.
    destruct (json_loads text) as [[| | | | | |d]|]; try reflexivity;
      try discriminate.
    destruct (dict_lookup d (lit "tags")) as [[| | | | | |]|];
      try reflexivity; discriminate. }
  split; [exact H | now rewrite H].
Qed.

Lemma load_tags_fallback_witness :
  no_tag_list (Some (Returns (qlit "{'tags': 'Wifi'}"))) = true /\
  load_tags (fun _ => []) (Some (Returns (qlit "{'tags': 'Wifi'}")))
    = DEFAULT_TAGS.
Proof.
  split; [vm_compute; reflexivity|].
  apply (load_tags_fallback (fun _ => []) (Some (Returns (qlit "{'tags': 'Wifi'}")))).
  vm_compute. reflexivity.
Defined.

(** X9.  A tags file with an empty array is accepted and leaves the
    service without any tag: the process-wide list is empty, so are the
    effective tags of every request, and no tag is ever suggested. *)
Theorem empty_tag_file_no_tags (value_str : value -> str) (text : str)
  (requested : option (list str)) (parsed_json : dict)
  (Hempty : json_loads text = Some (VList [])) :
  load_tags value_str (Some (Returns text)) = [] /\
  allowed_tags (load_tags value_str (Some (Returns text))) requested = [] /\
  suggested_tags parsed_json
    (allowed_tags (load_tags value_str (Some (Returns text))) requested) = [].
Proof.
  assert (H : load_tags value_str (Some (Returns text)) = []).
  { unfold load_tags. now rewrite Hempty. }
  rewrite H.
  assert (Ha : allowed_tags [] requested = []).
  { unfold allowed_tags. destruct requested as [[|x l]|]; try reflexivity.
    cbv beta iota zeta.
    assert (Hf : filter (fun t => str_in t []) (x :: l) = []).
    { induction (x :: l) as [|y r IH]; [reflexivity | exact IH]. }
    now rewrite Hf. }
  rewrite Ha. repeat split.
  unfold suggested_tags.
  induction (suggested_raw parsed_json) as [|e l IH]; [reflexivity|].
  simpl. destruct e; exact IH.
Qed.

Lemma empty_tag_file_no_tags_witness :
  json_loads (lit "[]") = Some (VList []) /\
  load_tags (fun _ => []) (Some (Returns (lit "[]"))) = [].
Proof.
  split; [vm_compute; reflexivity|].
  apply (empty_tag_file_no_tags (fun _ => []) (lit "[]") None []).
  vm_compute. reflexivity.
Defined.

(* ================================================================== *)
(** * The prompt *)
(* ================================================================== *)

Lemma contains_refl_prefix (p b : str) : contains (p ++ b) p = true.
Proof. apply contains_app. now exists [], b. Qed.

Lemma contains_skip (a b p : str) :
  contains b p = true -> contains (a ++ b) p = true.
Proof.
  rewrite !contains_app. intros [x [y ->]].
  exists (a ++ x), y. now rewrite <- app_assoc.
Qed.

Lemma contains_self (p : str) : contains p p = true.
Proof. apply contains_app. exists [], []. now rewrite app_nil_r. Qed.

Lemma join_contains (sep : str) (l : list str) (t : str) :
  In t l -> contains (join sep l) t = true.
Proof.
  induction l as [|x r IH]; [intros []|].
  intros [->|Hin].
  - destruct r; [apply contains_self | apply contains_refl_prefix].
  - simpl. destruct r as [|y r]; [destruct Hin|].
    apply contains_skip, contains_skip. now apply IH.
Qed.

(** X10.  The prompt starts with the fixed instructions and carries,
    verbatim and unescaped: the image URL or the word NONE, the
    description between triple quotes, the tag line, and so every tag it
    is given. *)
Theorem build_prompt_embeds (description : str) (image_url : option str)
  (allowed : list str) :
  let prompt := build_prompt description image_url allowed in
  startswith prompt system = true /\
  contains prompt
    (lit "IMAGE_URL: " ++ match image_url with
                          | Some [] => lit "NONE"
                          | Some u => u
                          | None => lit "NONE"
                          end ++ [10; 10]) = true /\
  contains prompt
    (tlit "DESCRIPTION: ~~~" ++ description ++ tlit "~~~") = true /\
  contains prompt
    (lit "ALLOWED_TAGS: " ++ match allowed with
                             | [] => lit "no tags provided"
                             | _ => join (lit ", ") allowed
                             end ++ [10; 10]) = true /\
  Forall (fun t => contains prompt t = true) allowed.
Proof.
  unfold build_prompt, user. cbv zeta. split; [|split; [|split; [|split]]].
  - apply startswith_app. eexists. reflexivity.
  - apply contains_skip, contains_skip.
    apply contains_app. exists []. eexists. cbn [app].
    rewrite <- !app_assoc.
    destruct image_url as [[|c u]|]; reflexivity.
  - do 5 apply contains_skip.
    apply contains_app. exists []. eexists. cbn [app].
    rewrite <- !app_assoc. reflexivity.
  - do 9 apply contains_skip.
    apply contains_app. exists []. eexists. cbn [app].
    rewrite <- !app_assoc. unfold tag_list_text.
    destruct allowed; reflexivity.
  - apply Forall_forall. intros t Ht.
    do 10 apply contains_skip.
    apply contains_app.
    unfold tag_list_text. destruct allowed as [|x r]; [destruct Ht|].
    pose proof (join_contains (lit ", ") (x :: r) t Ht) as H.
    apply contains_app in H. destruct H as [a [b ->]].
    exists a. eexists. rewrite <- !app_assoc. reflexivity.
Qed.

(* ================================================================== *)
(** * Trimming *)
(* ================================================================== *)

Lemma lstrip_all_space (s : str) : forallb isspace s = true -> lstrip s = [].
Proof.
  induction s as [|c t IH]; [reflexivity|]. simpl.
  destruct (isspace c); [exact IH | discriminate].
Qed.

Lemma lstrip_head (c : char) (t : str) :
  isspace c = false -> lstrip (c :: t) = c :: t.
Proof. intros H. simpl. now rewrite H. Qed.

Lemma rstrip_prefix (s : str) : prefix_of (rstrip s) s.
Proof.
  unfold rstrip. destruct (lstrip_suffix (rev s)) as [p Hp].
  exists (rev p). rewrite <- rev_app_distr, <- Hp. now rewrite rev_involutive.
Qed.

Lemma rstrip_last (t : str) (c : char) :
  isspace c = false -> rstrip (t ++ [c]) = t ++ [c].
Proof.
  intros H. unfold rstrip. rewrite rev_app_distr.
  change (rev [c] ++ rev t) with (c :: rev t).
  rewrite lstrip_head by assumption.
  simpl. now rewrite rev_involutive.
Qed.

(** A trimmed text is a part of the text. *)
Lemma strip_infix (s : str) : exists a b, s = a ++ strip s ++ b.
Proof.
  unfold strip. destruct (lstrip_suffix s) as [a Ha].
  destruct (rstrip_prefix (lstrip s)) as [b Hb].
  exists a, b. now rewrite <- Hb.
Qed.

Lemma contains_strip (s p : str) :
  contains (strip s) p = true -> contains s p = true.
Proof.
  rewrite !contains_app. intros [x [y H]].
  destruct (strip_infix s) as [a [b Hs]].
  exists (a ++ x), (y ++ b). rewrite Hs at 1. rewrite H.
  now rewrite <- !app_assoc.
Qed.

Lemma strip_blank (s : str) : forallb isspace s = true -> strip s = [].
Proof. intros H. unfold strip. now rewrite lstrip_all_space. Qed.

(** A text that starts and ends with characters that are not whitespace
    is its own trimmed form. *)
Lemma strip_trimmed (c e : char) (m : str) :
  isspace c = false -> isspace e = false ->
  strip (c :: m ++ [e]) = c :: m ++ [e].
Proof.
  intros Hc He. unfold strip. rewrite lstrip_head by assumption.
  change (c :: m ++ [e]) with ((c :: m) ++ [e]). now apply rstrip_last.
Qed.

(* ================================================================== *)
(** * The fence search *)
(* ================================================================== *)

Lemma rmatch_backticks {A} (s : str) (cap : option str)
  (k : str -> option str -> option A) :
  rmatch backticks s cap k
  = if startswith s [96; 96; 96] then k (skipn 3 s) cap else None.
Proof.
  unfold backticks, chr_is.
  destruct s as [|c1 [|c2 [|c3 t]]]; simpl;
    repeat match goal with
    | |- context [?c =? 96] => destruct (c =? 96)
    end; reflexivity.
Qed.

Lemma fence_match_needs_backticks {A} (s : str) (cap : option str)
  (k : str -> option str -> option A) :
  startswith s [96; 96; 96] = false -> rmatch fence_pattern s cap k = None.
Proof.
  intros H. unfold fence_pattern. cbn [rmatch].
  rewrite rmatch_backticks. now rewrite H.
Qed.

(** Without three backticks in a row there is no fence to take off. *)
Lemma fence_search_none (s : str) :
  contains s [96; 96; 96] = false -> re_search fence_pattern s = None.
Proof.
  induction s as [|c t IH]; intros H.
  - cbn [re_search]. now rewrite fence_match_needs_backticks.
  - cbn [contains] in H. apply orb_false_iff in H. destruct H as [H1 H2].
    cbn [re_search]. rewrite fence_match_needs_backticks by assumption.
    now apply IH.
Qed.

Lemma strip_fence_plain (text : str) :
  contains text [96; 96; 96] = false -> strip_fence text = strip text.
Proof.
  intros H. unfold strip_fence. rewrite fence_search_none; [reflexivity|].
  destruct (contains (strip text) [96; 96; 96]) eqn:E; [|reflexivity].
  apply contains_strip in E. congruence.
Qed.


(* ================================================================== *)
(** * The fence pattern on a fenced payload *)
(* ================================================================== *)

Lemma suffix_of_length (a b : str) :
  suffix_of a b -> (List.length a <= List.length b)%nat.
Proof. intros [p ->]. rewrite length_app. lia. Qed.

Lemma lstrip_fixed (s : str) :
  lstrip s = s -> match s with c :: _ => isspace c = false | [] => True end.
Proof.
  destruct s as [|c t]; [trivial|]. simpl.
  destruct (isspace c); [|reflexivity].
  intros H. pose proof (suffix_of_length _ _ (lstrip_suffix t)) as L.
  rewrite H in L. simpl in L. lia.
Qed.

(** A non-empty text that is its own trimmed form starts and ends with
    characters that are not whitespace. *)
Lemma strip_fixed_ends (j : str) :
  strip j = j -> j <> [] ->
  (exists c j0, j = c :: j0 /\ isspace c = false) /\
  (exists m e, j = m ++ [e] /\ isspace e = false).
Proof.
  intros Hs Hne.
  assert (Hl : lstrip j = j).
  { destruct (lstrip_suffix j) as [p Hp].
    destruct (rstrip_prefix (lstrip j)) as [q Hq].
    unfold strip in Hs. rewrite Hs in Hq.
    assert (Hlen : List.length p = 0%nat).
    { apply (f_equal (@List.length N)) in Hp, Hq.
      rewrite length_app in Hp, Hq. lia. }
    destruct p; [now rewrite Hp at 2 | discriminate]. }
  assert (Hr : lstrip (rev j) = rev j).
  { unfold strip in Hs. rewrite Hl in Hs. unfold rstrip in Hs.
    rewrite <- Hs at 2. now rewrite rev_involutive. }
  split.
  - destruct j as [|c j0]; [contradiction|].
    exists c, j0. split; [reflexivity | exact (lstrip_fixed _ Hl)].
  - destruct (rev j) as [|e r] eqn:E.
    + apply (f_equal (@rev N)) in E. rewrite rev_involutive in E. contradiction.
    + exists (rev r), e. split.
      * apply (f_equal (@rev N)) in E. now rewrite rev_involutive in E.
      * rewrite <- E in Hr. rewrite E in Hr. exact (lstrip_fixed _ Hr).
Qed.

Lemma star_greedy_skip {A} (p : char -> bool) (w s : str)
  (k : str -> option A) (x : A) :
  forallb p w = true ->
  match s with c :: _ => p c = false | [] => True end ->
  k s = Some x -> star_greedy p (w ++ s) k = Some x.
Proof.
  intros Hw Hs Hk. induction w as [|a w IH].
  - simpl. destruct s as [|c t]; [exact Hk|]. simpl. now rewrite Hs.
  - simpl in Hw. apply andb_true_iff in Hw. destruct Hw as [Ha Hw].
    simpl. rewrite Ha. now rewrite IH.
Qed.

Lemma star_lazy_skip {A} (a s : str) (k : str -> option A) (x : A) :
  (forall a1 a2, a = a1 ++ a2 -> a2 <> [] -> k (a2 ++ s) = None) ->
  k s = Some x -> star_lazy any_char (a ++ s) k = Some x.
Proof.
  intros Hfail Hk. induction a as [|c a IH].
  - simpl. destruct s; simpl; now rewrite Hk.
  - assert (H0 : k (c :: a ++ s) = None).
    { apply (Hfail [] (c :: a) eq_refl). discriminate. }
    simpl. rewrite H0. unfold any_char at 1. apply IH.
    intros a1 a2 -> Hne. apply (Hfail (c :: a1) a2); [reflexivity | assumption].
Qed.

(** Inside the payload the closing part of the pattern (whitespace, then
    three backticks) matches nowhere. *)
Lemma closing_fails_inside {A} (m : str) (e : char) (rest : str)
  (cap : option str) (k : str -> option str -> option A) :
  ~ In 96 (m ++ [e]) -> isspace e = false ->
  star_greedy isspace ((m ++ [e]) ++ rest)
    (fun s' => rmatch backticks s' cap k) = None.
Proof.
  intros Hno He. induction m as [|c m IH].
  - assert (H96 : (e =? 96) = false).
    { apply N.eqb_neq. intros ->. apply Hno. now left. }
    cbn [app star_greedy]. rewrite He. rewrite rmatch_backticks.
    simpl. now rewrite H96.
  - assert (H96 : (c =? 96) = false).
    { apply N.eqb_neq. intros ->. apply Hno. now left. }
    assert (IH' : star_greedy isspace ((m ++ [e]) ++ rest)
                    (fun s' => rmatch backticks s' cap k) = None).
    { apply IH. intros H. apply Hno. now right. }
    assert (Hk : rmatch backticks (c :: (m ++ [e]) ++ rest) cap k = None).
    { rewrite rmatch_backticks. simpl. now rewrite H96. }
    change (((c :: m) ++ [e]) ++ rest) with (c :: (m ++ [e]) ++ rest).
    cbn [star_greedy]. rewrite IH', Hk. now destruct (isspace c).
Qed.

Lemma nonempty_suffix_keeps_last (a1 a2 m : str) (e : char) :
  m ++ [e] = a1 ++ a2 -> a2 <> [] -> exists m2, a2 = m2 ++ [e] /\ m = a1 ++ m2.
Proof.
  intros H Hne.
  destruct (exists_last Hne) as [m2 [e2 ->]].
  rewrite app_assoc in H. apply app_inj_tail in H. destruct H as [-> ->].
  now exists m2.
Qed.

Lemma after_tag_match (w1 w2 j : str) (cap : option str) :
  forallb isspace w1 = true -> forallb isspace w2 = true ->
  j <> [] -> strip j = j -> ~ In 96 j ->
  rmatch after_tag (w1 ++ j ++ w2 ++ [96; 96; 96]) cap
    (fun _ cap' => Some (group1 cap')) = Some j.
Proof.
  intros Hw1 Hw2 Hne Hs Hno.
  destruct (strip_fixed_ends j Hs Hne) as [[c [j0 [Hj Hc]]] [m [e [Hm He]]]].
  unfold after_tag. cbn [rmatch].
  apply star_greedy_skip; [assumption | now rewrite Hj |].
  apply star_lazy_skip.
  - intros a1 a2 Ha Ha2.
    rewrite Hm in Ha. destruct (nonempty_suffix_keeps_last _ _ _ _ Ha Ha2)
      as [m2 [-> Hm2]].
    apply closing_fails_inside; [|assumption].
    intros H. apply Hno. rewrite Hm, Hm2. rewrite <- app_assoc.
    apply in_or_app. now right.
  - assert (Hk : star_greedy isspace (w2 ++ [96; 96; 96])
                   (fun s' => rmatch backticks s'
                      (Some (firstn (List.length (j ++ w2 ++ [96; 96; 96])
                                     - List.length (w2 ++ [96; 96; 96]))
                                    (j ++ w2 ++ [96; 96; 96])))
                      (fun _ cap' => Some (group1 cap')))
                 = Some j).
    { apply star_greedy_skip; [assumption | reflexivity |].
      rewrite rmatch_backticks. simpl startswith. cbv iota.
      unfold group1. f_equal. apply firstn_prefix. }
    exact Hk.
Qed.

Lemma fence_pattern_parts {A} (s : str) (cap : option str)
  (k : str -> option str -> option A) :
  rmatch fence_pattern s cap k
  = if startswith s [96; 96; 96] then
      match rmatch json_tag (skipn 3 s) cap
              (fun s' cap' => rmatch after_tag s' cap' k) with
      | Some x => Some x
      | None => rmatch after_tag (skipn 3 s) cap k
      end
    else None.
Proof.
  unfold fence_pattern. cbn [rmatch]. rewrite rmatch_backticks. reflexivity.
Qed.

Lemma json_tag_fails {A} (s : str) (cap : option str)
  (k : str -> option str -> option A) :
  ~ In (hd 0 s) [106; 74] -> rmatch json_tag s cap k = None.
Proof.
  intros H. destruct s as [|c t]; [reflexivity|].
  unfold json_tag. cbn [rmatch]. unfold chr_ignorecase at 1.
  simpl in H.
  assert (H1 : (c =? 106) = false) by (apply N.eqb_neq; intros ->; tauto).
  assert (H2 : (c =? 74) = false) by (apply N.eqb_neq; intros ->; tauto).
  now rewrite H1, H2.
Qed.

Lemma fence_match (tag w1 w2 j : str) :
  fence_tag tag (w1 ++ j) ->
  forallb isspace w1 = true -> forallb isspace w2 = true ->
  j <> [] -> strip j = j -> ~ In 96 j ->
  rmatch fence_pattern
    ([96; 96; 96] ++ tag ++ w1 ++ j ++ w2 ++ [96; 96; 96]) None
    (fun _ cap => Some (group1 cap)) = Some j.
Proof.
  intros Htag Hw1 Hw2 Hne Hs Hno.
  rewrite fence_pattern_parts.
  change (startswith ([96; 96; 96] ++ tag ++ w1 ++ j ++ w2 ++ [96; 96; 96])
            [96; 96; 96]) with true.
  change (skipn 3 ([96; 96; 96] ++ tag ++ w1 ++ j ++ w2 ++ [96; 96; 96]))
    with (tag ++ w1 ++ j ++ w2 ++ [96; 96; 96]).
  cbv iota.
  destruct Htag as [-> | [-> | [-> Hhd]]].
  - change (rmatch json_tag (lit "json" ++ w1 ++ j ++ w2 ++ [96; 96; 96]) None
              (fun s' cap' => rmatch after_tag s' cap'
                                (fun _ cap => Some (group1 cap))))
      with (rmatch after_tag (w1 ++ j ++ w2 ++ [96; 96; 96]) None
              (fun _ cap => Some (group1 cap))).
    now rewrite after_tag_match.
  - change (rmatch json_tag (lit "JSON" ++ w1 ++ j ++ w2 ++ [96; 96; 96]) None
              (fun s' cap' => rmatch after_tag s' cap'
                                (fun _ cap => Some (group1 cap))))
      with (rmatch after_tag (w1 ++ j ++ w2 ++ [96; 96; 96]) None
              (fun _ cap => Some (group1 cap))).
    now rewrite after_tag_match.
  - rewrite json_tag_fails.
    + now apply after_tag_match.
    + cbn [app]. destruct w1 as [|x w1]; [|exact Hhd].
      destruct j as [|c j0]; [contradiction | exact Hhd].
Qed.

Lemma fenced_strip (tag w1 w2 j : str) :
  strip ([96; 96; 96] ++ tag ++ w1 ++ j ++ w2 ++ [96; 96; 96])
  = [96; 96; 96] ++ tag ++ w1 ++ j ++ w2 ++ [96; 96; 96].
Proof.
  replace ([96; 96; 96] ++ tag ++ w1 ++ j ++ w2 ++ [96; 96; 96])
    with (96 :: ([96; 96] ++ tag ++ w1 ++ j ++ w2 ++ [96; 96]) ++ [96]).
  - now apply strip_trimmed.
  - cbn [app]. do 3 f_equal. rewrite <- !app_assoc. reflexivity.
Qed.

Lemma strip_fence_fenced (tag w1 w2 j : str) :
  fence_tag tag (w1 ++ j) ->
  forallb isspace w1 = true -> forallb isspace w2 = true ->
  j <> [] -> strip j = j -> ~ In 96 j ->
  strip_fence ([96; 96; 96] ++ tag ++ w1 ++ j ++ w2 ++ [96; 96; 96]) = j.
Proof.
  intros Htag Hw1 Hw2 Hne Hs Hno.
  unfold strip_fence. rewrite fenced_strip.
  assert (H : re_search fence_pattern
                ([96; 96; 96] ++ tag ++ w1 ++ j ++ w2 ++ [96; 96; 96])
              = Some j).
  { change ([96; 96; 96] ++ tag ++ w1 ++ j ++ w2 ++ [96; 96; 96])
      with (96 :: [96; 96] ++ tag ++ w1 ++ j ++ w2 ++ [96; 96; 96]).
    cbn [re_search].
    change (96 :: [96; 96] ++ tag ++ w1 ++ j ++ w2 ++ [96; 96; 96])
      with ([96; 96; 96] ++ tag ++ w1 ++ j ++ w2 ++ [96; 96; 96]).
    now rewrite fence_match. }
  now rewrite H.
Qed.

(* ================================================================== *)
(** * The escape decoder on texts without a backslash *)

Lemma decode_no_backslash (getcode : bytes -> option char) (b : bytes)
  (out : str) :
  ~ In 92 b -> unicode_escape_decode getcode None b out = Some (rev out ++ b).
Proof.
  revert out. induction b as [|c t IH]; intros out H.
  - simpl. now rewrite app_nil_r.
  - assert (Hc : (c =? 92) = false).
    { apply N.eqb_neq. intros ->. apply H. now left. }
    cbn [unicode_escape_decode]. rewrite Hc. cbn [negb].
    rewrite IH by (intros Hin; apply H; now right).
    simpl. now rewrite <- app_assoc.
Qed.

Lemma high_byte (k x : N) : 128 <= k -> k + x <> 92.
Proof. lia. Qed.

Lemma utf8_char_no_backslash (c : char) (b : bytes) :
  utf8_char c = Some b -> c <> 92 -> ~ In 92 b.
Proof.
  unfold utf8_char. intros H Hc Hin.
  destruct (c <? 128) eqn:E1.
  { assert (Hb : [c] = b) by congruence. subst b.
    destruct Hin as [H1|[]]. congruence. }
  destruct (c <? 2048).
  { assert (Hb : [192 + c / 64; 128 + c mod 64] = b) by congruence. subst b.
    destruct Hin as [H1|[H1|[]]]; revert H1; apply high_byte; lia. }
  destruct (is_surrogate c); [discriminate|].
  destruct (c <? 65536).
  { assert (Hb : [224 + c / 4096; 128 + (c / 64) mod 64; 128 + c mod 64] = b)
      by congruence. subst b.
    destruct Hin as [H1|[H1|[H1|[]]]]; revert H1; apply high_byte; lia. }
  destruct (c <? 1114112); [|discriminate].
  assert (Hb : [240 + c / 262144; 128 + (c / 4096) mod 64;
                128 + (c / 64) mod 64; 128 + c mod 64] = b) by congruence.
  subst b.
  destruct Hin as [H1|[H1|[H1|[H1|[]]]]]; revert H1; apply high_byte; lia.
Qed.

Lemma utf8_no_backslash (s : str) (b : bytes) :
  utf8_encode s = Some b -> ~ In 92 s -> ~ In 92 b.
Proof.
  revert b. induction s as [|c s IH]; intros b H Hs.
  - injection H as <-. intros [].
  - simpl in H. destruct (utf8_char c) as [bc|] eqn:Ec; [|discriminate].
    destruct (utf8_encode s) as [bs|] eqn:Es; [|discriminate].
    injection H as <-. intros Hin. apply in_app_or in Hin. destruct Hin as [Hin|Hin].
    + revert Hin. apply (utf8_char_no_backslash c); [assumption|].
      intros ->. apply Hs. now left.
    + revert Hin. apply IH; [reflexivity|]. intros Hin. apply Hs. now right.
Qed.

Lemma utf8_ascii (s : str) : is_ascii s = true -> utf8_encode s = Some s.
Proof.
  unfold is_ascii. induction s as [|c s IH]; [reflexivity|].
  simpl. intros H. apply andb_true_iff in H. destruct H as [Hc Hs].
  unfold utf8_char. rewrite Hc. now rewrite IH.
Qed.

Lemma unescape_plain (getcode : bytes -> option char) (s : str) :
  ~ In 92 s -> unescape getcode s = utf8_encode s.
Proof.
  intros H. unfold unescape.
  destruct (utf8_encode s) as [b|] eqn:E; [|reflexivity].
  rewrite decode_no_backslash; [reflexivity|].
  now apply (utf8_no_backslash s).
Qed.

(** * The brace scan *)





(* ================================================================== *)
(** * Recovery: what the function does on common answers *)
(* ================================================================== *)




(** X12.  A text that is not empty but blank (whitespace only) is not
    taken for an empty output: the function goes through its steps and
    raises "Unable to extract JSON object from model output". *)
Theorem blank_text (getcode : bytes -> option char)
  (charref_sub : str -> option str) (c : char) (t : str)
  (Hblank : forallb isspace (c :: t) = true) :
  clean_model_text_and_extract_json getcode charref_sub (PStr (c :: t))
  = inl Unable_to_extract.
Proof.
  unfold clean_model_text_and_extract_json, strip_fence.
  rewrite strip_blank by assumption. reflexivity.
Qed.

Lemma blank_text_witness :
  forallb isspace [32; 10; 9] = true /\
  clean_model_text_and_extract_json (fun _ => None) (fun _ => None)
    (PStr [32; 10; 9])
  = inl Unable_to_extract.
Proof.
  split; [reflexivity|].
  apply (blank_text (fun _ => None) (fun _ => None) 32 [10; 9]).
  reflexivity.
Defined.

(** X13.  A payload wrapped in a Markdown fence (three backticks, the
    tag [json] or none, whitespace, the payload, whitespace, three
    backticks) is taken out of the fence, and the function gives for the
    fenced text exactly what it gives for the bare payload.  The payload
    is trimmed, not empty, and holds no backtick. *)
Theorem fenced_payload (getcode : bytes -> option char)
  (charref_sub : str -> option str) (tag w1 w2 j : str)
  (Htag : fence_tag tag (w1 ++ j))
  (Hw1 : forallb isspace w1 = true) (Hw2 : forallb isspace w2 = true)
  (Hne : j <> []) (Htrim : strip j = j) (Hno : ~ In 96 j) :
  strip_fence ([96; 96; 96] ++ tag ++ w1 ++ j ++ w2 ++ [96; 96; 96]) = j /\
  clean_model_text_and_extract_json getcode charref_sub
    (PStr ([96; 96; 96] ++ tag ++ w1 ++ j ++ w2 ++ [96; 96; 96]))
  = clean_model_text_and_extract_json getcode charref_sub (PStr j).
Proof.
  pose proof (strip_fence_fenced tag w1 w2 j Htag Hw1 Hw2 Hne Htrim Hno) as H.
  split; [exact H|].
  assert (Hj : strip_fence j = j).
  { rewrite strip_fence_plain; [exact Htrim|].
    destruct (contains j [96; 96; 96]) eqn:E; [|reflexivity].
    exfalso. apply Hno. apply (contains_In j [96; 96; 96]); [assumption|now left]. }
  destruct j as [|c j0]; [contradiction|].
  change ([96; 96; 96] ++ tag ++ w1 ++ (c :: j0) ++ w2 ++ [96; 96; 96])
    with (96 :: [96; 96] ++ tag ++ w1 ++ (c :: j0) ++ w2 ++ [96; 96; 96]) in *.
  unfold clean_model_text_and_extract_json. now rewrite H, Hj.
Qed.

Lemma fenced_payload_witness :
  fence_tag (lit "json") ([10] ++ qlit "{'allowed': true}") /\
  strip (qlit "{'allowed': true}") = qlit "{'allowed': true}" /\
  ~ In 96 (qlit "{'allowed': true}") /\
  strip_fence (lit "```json" ++ [10] ++ qlit "{'allowed': true}" ++ [10]
               ++ lit "```")
  = qlit "{'allowed': true}".
Proof.
  assert (Hno : ~ In 96 (qlit "{'allowed': true}")).
  { vm_compute. intuition discriminate. }
  split; [now left|]. split; [reflexivity|]. split; [exact Hno|].
  apply (fenced_payload (fun _ => None) (fun _ => None)
           (lit "json") [10] [10] (qlit "{'allowed': true}")).
  - now left.
  - reflexivity.
  - reflexivity.
  - discriminate.
  - reflexivity.
  - exact Hno.
Defined.

(** X14.  On a text without a backslash the unescape pass is the UTF-8
    encoding read back byte by byte: it fails exactly when the encoding
    does (a surrogate), it changes nothing in an ASCII text, and it
    replaces every other character by its bytes. *)
Theorem unescape_without_backslash (getcode : bytes -> option char) (s : str)
  (Hslash : ~ In 92 s) :
  unescape getcode s = utf8_encode s /\
  (is_ascii s = true -> unescape getcode s = Some s).
Proof.
  split; [now apply unescape_plain|].
  intros H. rewrite unescape_plain by assumption. now apply utf8_ascii.
Qed.

Lemma unescape_without_backslash_witness :
  ~ In 92 [99; 97; 102; 233] /\
  unescape (fun _ => None) [99; 97; 102; 233] = Some [99; 97; 102; 195; 169].
Proof.
  assert (H : ~ In 92 [99; 97; 102; 233]).
  { cbn [In]. intros [H|[H|[H|[H|[]]]]]; discriminate. }
  split; [exact H|].
  rewrite (proj1 (unescape_without_backslash (fun _ => None) _ H)).
  reflexivity.
Defined.




(** The object [{"reason": "café"}] after the word Note: the reason
    comes back as the six characters c, a, f, U+00C3, U+00A9. *)
Example accented_text_in_prose :
  clean_model_text_and_extract_json (fun _ => None) (fun _ => None)
    (PStr (lit "Note: " ++ qlit "{'reason': 'caf" ++ [233] ++ qlit "'}"))
  = inr (VDict [(lit "reason", VStr (lit "caf" ++ [195; 169]))]).
Proof. vm_compute. reflexivity. Qed.


(* ================================================================== *)
(** * Answers that are rejected *)
(* ================================================================== *)



(** X18.  When the extractor hands back something that is not a string
    (the text of a first candidate can be any truthy value), [validate]
    never parses it: the answer is status 500 with "LLM returned non-JSON
    output" and the first 1000 characters of [str()] of that value. *)
Theorem non_string_text_rejected (builtin_str : pyobj -> str)
  (getcode : bytes -> option char) (charref_sub : str -> option str)
  (allowed : list str) (resp text_out : pyobj) (s : str)
  (Hextract : extract_text_from_response builtin_str resp = Returns text_out)
  (Hstr : is_str text_out = false)
  (Hs : py_str builtin_str text_out = Returns s) :
  validate_response builtin_str getcode charref_sub allowed resp
  = HTTPException 500 (non_json_detail s).
Proof.
  unfold validate_response, validate_text. rewrite Hextract.
  destruct text_out; try discriminate Hstr; cbn [clean_model_text_and_extract_json];
    now rewrite Hs.
Qed.

Lemma non_string_text_rejected_witness :
  extract_text_from_response (fun _ => lit "123") response_with_numeric_text
    = Returns (PInt 123) /\
  validate_response (fun _ => lit "123") (fun _ => None) (fun _ => None)
    sample_tags response_with_numeric_text
  = HTTPException 500
      (lit "LLM returned non-JSON output. Raw (truncated): 123").
Proof.
  split; [reflexivity|].
  apply (non_string_text_rejected (fun _ => lit "123") (fun _ => None)
           (fun _ => None) sample_tags response_with_numeric_text
           (PInt 123) (lit "123")); reflexivity.
Defined.

(* ================================================================== *)
(** * More about the extractor *)
(* ================================================================== *)

(** X19.  A response that is a built-in value (a string, a dictionary, a
    list, [None], ...) has none of the probed attributes: the extractor
    returns [str(response)], and the keys of a dictionary response are
    never looked at. *)
Theorem extract_from_builtin (builtin_str : pyobj -> str) (response : pyobj)
  (Hbuiltin : is_instance response = false) :
  extract_text_from_response builtin_str response
  = Returns (PStr (match response with
                   | PStr s => s
                   | _ => builtin_str response
                   end)).
Proof. destruct response; try reflexivity. discriminate. Qed.

Lemma extract_from_builtin_witness :
  is_instance dict_response = false /\
  extract_text_from_response (fun _ => lit "{...}") dict_response
  = Returns (PStr (lit "{...}")).
Proof.
  split; [reflexivity|].
  apply (extract_from_builtin (fun _ => lit "{...}") dict_response).
  reflexivity.
Defined.

(** X20.  The first candidate wins: when [candidates] is a non-empty
    list or tuple whose first element has a truthy text, that text is the
    result, whatever [outputs], [response] and [output] hold. *)
Theorem candidate_text_first (builtin_str : pyobj -> str)
  (response cands cand0 txt : pyobj) (rest : list pyobj)
  (Hcands : getattr response (lit "candidates") = Returns cands)
  (Hseq : as_sequence cands = Some (cand0 :: rest))
  (Htext : candidate_text cand0 txt)
  (Htruthy : truthy txt = true) :
  extract_text_from_response builtin_str response = Returns txt.
Proof.
  assert (Hc : truthy cands = true).
  { destruct cands; try discriminate; injection Hseq as ->; reflexivity. }
  unfold extract_text_from_response, strategy_candidates, bind.
  rewrite Hcands, Hc, Hseq.
  destruct Htext as [[Ha Ht] | [a [Ha [Hf Hd]]]].
  - rewrite Ha. unfold py_or. now rewrite Ht, Htruthy.
  - rewrite Ha. unfold py_or. now rewrite Hf, Hd, Htruthy.
Qed.

Lemma candidate_text_first_witness :
  getattr response_with_both (lit "candidates")
    = Returns (PList [PDict [(lit "text", PStr (lit "first"))]]) /\
  candidate_text (PDict [(lit "text", PStr (lit "first"))]) (PStr (lit "first")) /\
  extract_text_from_response (fun _ => []) response_with_both
  = Returns (PStr (lit "first")).
Proof.
  assert (H : candidate_text (PDict [(lit "text", PStr (lit "first"))])
                (PStr (lit "first"))).
  { right. exists PNone. repeat split. }
  split; [reflexivity|]. split; [exact H|].
  apply (candidate_text_first (fun _ => []) response_with_both
           (PList [PDict [(lit "text", PStr (lit "first"))]])
           (PDict [(lit "text", PStr (lit "first"))])
           (PStr (lit "first")) []).
  - reflexivity.
  - reflexivity.
  - exact H.
  - reflexivity.
Defined.

(** X21.  An exception raised while a strategy runs never leaves the
    extractor: it raises only when [str()] of the whole response raises,
    and then with that exception; whenever [str()] of the response
    returns, the extractor returns.  What it returns is a string unless
    it is the text of the first candidate. *)
Theorem extract_raises_only_from_str (builtin_str : pyobj -> str)
  (response : pyobj) :
  (forall msg, extract_text_from_response builtin_str response = Raises msg ->
               py_str builtin_str response = Raises msg) /\
  (forall v, extract_text_from_response builtin_str response = Returns v ->
             is_str v = true \/ strategy_candidates response = Return_ v) /\
  (forall s, py_str builtin_str response = Returns s ->
             exists v, extract_text_from_response builtin_str response = Returns v).
Proof.
  pose proof (extract_text_shape builtin_str response) as H.
  repeat split.
  - intros msg E. now rewrite E in H.
  - intros v E. now rewrite E in H.
  - intros s E.
    destruct (extract_text_from_response builtin_str response) as [v|msg];
      [now exists v|].
    rewrite E in H. discriminate.
Qed.

(* ================================================================== *)
(** * [validate] from the request to the body *)
(* ================================================================== *)



(** X23.  A [TypeError] of the first call to the model is never
    reported: the call is made again with the settings as keywords, and
    that second call alone decides the answer (its exception, handled as
    usual, or its response). *)
Theorem type_error_retried (env : environment) (req : CheckRequest)
  (parts : list part) (msg : str)
  (Hconfigured : GENAI_CONFIGURED env = true)
  (Hparts : image_parts env req = Some parts)
  (Hsdk : has_GenerativeModel env = true)
  (Hmodel : GenerativeModel env = None)
  (Hfirst : generate_content env
              (parts ++ [TextPart (build_prompt (description req) (imageUrl req)
                                     (allowed_tags (PREDEFINED_TAGS env)
                                                   (allowedTags req)))])
              WithGenerationConfig
            = inl (TypeError msg)) :
  validate env req =
  match generate_content env
          (parts ++ [TextPart (build_prompt (description req) (imageUrl req)
                                 (allowed_tags (PREDEFINED_TAGS env)
                                               (allowedTags req)))])
          WithKeywords with
  | inl e => handle e
  | inr resp =>
      validate_response (builtin_str env) (unicodedata_getcode env)
        (charref_sub env)
        (allowed_tags (PREDEFINED_TAGS env) (allowedTags req)) resp
  end.
Proof.
  rewrite validate_steps by assumption. rewrite Hparts.
  unfold call_model. now rewrite Hsdk, Hmodel, Hfirst.
Qed.

Lemma type_error_retried_witness :
  generate_content sample_env_keywords
    ([] ++ [TextPart (build_prompt (description sample_request)
                        (imageUrl sample_request)
                        (allowed_tags (PREDEFINED_TAGS sample_env_keywords)
                                      (allowedTags sample_request)))])
    WithGenerationConfig
  = inl (TypeError (lit "unexpected keyword argument")) /\
  validate sample_env_keywords sample_request
  = validate_response (fun _ => []) (fun _ => None) (fun _ => None)
      sample_tags sample_response.
Proof.
  split; [reflexivity|].
  exact (type_error_retried sample_env_keywords sample_request []
           (lit "unexpected keyword argument")
           eq_refl eq_refl eq_refl eq_refl eq_refl).
Defined.

(** X24.  The two endpoints agree: every tag in the [suggestedTags] of a
    body that [validate] returns is one of the tags that [get_tags]
    lists, and the count [get_tags] reports is the number of tags it
    lists. *)
Theorem suggested_tags_are_listed (env : environment) (req : CheckRequest)
  (body : value) (Hbody : validate env req = Return body) :
  exists tags listed,
    body_entry body (lit "suggestedTags") = Some (VList (map VStr tags)) /\
    get_tags env = VDict [ (lit "tags", VList listed);
                           (lit "count", VInt (Z.of_nat (List.length listed))) ] /\
    Forall (fun t => In (VStr t) listed) tags.
Proof.
  destruct (validate_returns env req body Hbody) as [_ [_ Hshape]].
  destruct Hshape as [a [r [f1 [f2 [f3 [f4 [tags [raw [-> [Hin _]]]]]]]]]].
  pose proof (allowed_tags_subset (PREDEFINED_TAGS env) (allowedTags req)) as Hsub.
  exists tags, (map VStr (PREDEFINED_TAGS env)).
  split; [reflexivity|]. split.
  - unfold get_tags. now rewrite length_map.
  - rewrite Forall_forall in *. intros t Ht. apply in_map. now apply Hsub, Hin.
Qed.

Lemma suggested_tags_are_listed_witness :
  validate sample_env sample_request = Return sample_body /\
  exists tags listed,
    body_entry sample_body (lit "suggestedTags") = Some (VList (map VStr tags)) /\
    get_tags sample_env
    = VDict [ (lit "tags", VList listed);
              (lit "count", VInt (Z.of_nat (List.length listed))) ] /\
    Forall (fun t => In (VStr t) listed) tags.
Proof.
  assert (Hbody : validate sample_env sample_request = Return sample_body).
  { vm_compute. reflexivity. }
  split; [exact Hbody|].
  exact (suggested_tags_are_listed sample_env sample_request sample_body Hbody).
Defined.

(* ================================================================== *)
(** * Configuration and the health endpoint *)
(* ================================================================== *)

Lemma handle_configured (e : raised) : handle e <> not_configured.
Proof. destruct e; discriminate. Qed.

Lemma validate_response_configured
  (builtin_str : pyobj -> str) (getcode : bytes -> option char)
  (charref_sub : str -> option str) (allowed : list str) (resp : pyobj) :
  validate_response builtin_str getcode charref_sub allowed resp
  <> not_configured.
Proof.
  unfold validate_response, validate_text, llm_check_failed.
  destruct (extract_text_from_response builtin_str resp) as [text_out|msg];
    [|discriminate].
  destruct (clean_model_text_and_extract_json getcode charref_sub text_out)
    as [e|v]; destruct (py_str builtin_str text_out) as [s|msg];
    try discriminate.
  destruct v; discriminate.
Qed.

(** X25.  The health endpoint tells what [validate] will do: it reports
    [genai_configured] false exactly when [validate] answers with the
    "LLM backend not configured" error (and then it does so for every
    request); and its [tag_count] is the count of the tags endpoint. *)
Theorem health_predicts_validate (env : environment) (req : CheckRequest) :
  (body_entry (health env) (lit "genai_configured") = Some (VBool false)
   <-> validate env req = not_configured) /\
  body_entry (health env) (lit "tag_count")
  = body_entry (get_tags env) (lit "count").
Proof.
  split; [|reflexivity].
  change (body_entry (health env) (lit "genai_configured"))
    with (Some (VBool (GENAI_CONFIGURED env))).
  destruct (GENAI_CONFIGURED env) eqn:Hc.
  - split; [discriminate|]. intros H. exfalso.
    rewrite validate_steps in H by assumption.
    destruct (image_parts env req) as [parts|]; [|discriminate].
    destruct (call_model env _) as [e|resp].
    + now apply (handle_configured e).
    + now apply (validate_response_configured _ _ _ _ _ H).
  - split; [|reflexivity]. intros _. unfold validate. now rewrite Hc.
Qed.

(** X26.  An API key that is missing or holds only whitespace counts as
    no key: the service starts unconfigured whatever the SDK does, and
    every [validate] request is answered with the "LLM backend not
    configured" error. *)
Theorem blank_key_not_configured (env : environment) (req : CheckRequest)
  (api_key_env : option str) (has_genai configure_ok : bool)
  (Hstartup : GENAI_CONFIGURED env
              = configure_at_startup api_key_env has_genai configure_ok)
  (Hblank : match api_key_env with
            | Some k => forallb isspace k = true
            | None => True
            end) :
  GENAI_CONFIGURED env = false /\ validate env req = not_configured.
Proof.
  assert (H : GENAI_CONFIGURED env = false).
  { rewrite Hstartup. unfold configure_at_startup, GEMINI_API_KEY.
    destruct api_key_env as [k|]; [|reflexivity].
    now rewrite strip_blank. }
  split; [exact H|]. unfold validate. now rewrite H.
Qed.

Lemma blank_key_not_configured_witness :
  configure_at_startup (Some [32; 32]) true true = false /\
  validate sample_env_unconfigured sample_request = not_configured.
Proof.
  split; [reflexivity|].
  apply (blank_key_not_configured sample_env_unconfigured sample_request
           (Some [32; 32]) true true); reflexivity.
Defined.

(* ================================================================== *)
(** * Recovery of a quoted, escaped payload *)
(* ================================================================== *)

Lemma decode_escaped (getcode : bytes -> option char) (j : str) (b : bytes)
  (out : str) :
  ~ In 92 j ->
  unicode_escape_decode getcode None (escaped j ++ b) out
  = unicode_escape_decode getcode None b (rev j ++ out).
Proof.
  revert out. induction j as [|c j IH]; intros out H; [reflexivity|].
  assert (Hc : (c =? 92) = false).
  { apply N.eqb_neq. intros ->. apply H. now left. }
  assert (Hj : ~ In 92 j) by (intros Hin; apply H; now right).
  unfold escaped. cbn [flat_map]. fold (escaped j).
  unfold escape_char.
  destruct (c =? 34) eqn:E34; [|destruct (c =? 10) eqn:E10].
  - apply N.eqb_eq in E34. subst c.
    cbn [app]. cbn [unicode_escape_decode].
    change (negb (92 =? 92)) with false. cbv iota.
    change (34 =? 10) with false.
    change ((34 =? 92) || (34 =? 39) || (34 =? 34)) with true. cbv iota.
    rewrite IH by assumption. cbn [rev]. now rewrite <- app_assoc.
  - apply N.eqb_eq in E10. subst c.
    cbn [app]. cbn [unicode_escape_decode].
    change (negb (92 =? 92)) with false. cbv iota.
    change (110 =? 10) with false.
    change ((110 =? 92) || (110 =? 39) || (110 =? 34)) with false.
    change (110 =? 98) with false. change (110 =? 102) with false.
    change (110 =? 116) with false. change (110 =? 110) with true. cbv iota.
    rewrite IH by assumption. cbn [rev]. now rewrite <- app_assoc.
  - cbn [app]. cbn [unicode_escape_decode]. rewrite Hc. cbn [negb].
    rewrite IH by assumption. cbn [rev]. now rewrite <- app_assoc.
Qed.

Lemma escaped_ascii (j : str) : is_ascii j = true -> is_ascii (escaped j) = true.
Proof.
  unfold is_ascii. induction j as [|c j IH]; [reflexivity|].
  cbn [forallb]. intros H. apply andb_true_iff in H. destruct H as [Hc Hj].
  unfold escaped. cbn [flat_map]. fold (escaped j).
  rewrite forallb_app, (IH Hj), andb_true_r.
  unfold escape_char. destruct (c =? 34); [reflexivity|].
  destruct (c =? 10); [reflexivity|]. cbn [forallb]. now rewrite Hc.
Qed.

Lemma escaped_In (j : str) (x : char) :
  In x (escaped j) -> In x j \/ x = 92 \/ x = 110.
Proof.
  unfold escaped. rewrite in_flat_map. intros [c [Hc Hx]].
  unfold escape_char in Hx.
  destruct (c =? 34) eqn:E34; [|destruct (c =? 10)].
  - apply N.eqb_eq in E34. subst c.
    destruct Hx as [<-|[<-|[]]]; [right; now left | now left].
  - destruct Hx as [<-|[<-|[]]]; right; [now left | now right].
  - destruct Hx as [<-|[]]. now left.
Qed.

Lemma escaped_quote (j : str) :
  In 34 j -> contains (escaped j) [92; 34] = true.
Proof.
  intros H. apply in_split in H. destruct H as [a [b ->]].
  apply contains_app. exists (escaped a), (escaped b).
  unfold escaped. rewrite flat_map_app. reflexivity.
Qed.

Lemma unescape_quoted (getcode : bytes -> option char) (j : str) :
  is_ascii j = true -> ~ In 92 j ->
  unescape getcode (quoted j) = Some (34 :: j ++ [34]).
Proof.
  intros Ha Hs. unfold unescape.
  assert (Hq : is_ascii (quoted j) = true).
  { unfold quoted, is_ascii. cbn [forallb]. rewrite forallb_app.
    fold (is_ascii (escaped j)). now rewrite escaped_ascii. }
  rewrite (utf8_ascii _ Hq). unfold quoted.
  cbn [unicode_escape_decode]. change (negb (34 =? 92)) with true. cbv iota.
  rewrite decode_escaped by assumption.
  cbn [unicode_escape_decode]. change (negb (34 =? 92)) with true. cbv iota.
  cbn [unicode_escape_decode rev]. rewrite rev_app_distr, rev_involutive.
  reflexivity.
Qed.

Lemma slice_quoted (j : str) : slice_1_m1 (34 :: j ++ [34]) = j.
Proof. unfold slice_1_m1. cbn [tl]. apply removelast_last. Qed.

Lemma endswith_last (j : str) (c : char) : endswith (j ++ [c]) [c] = true.
Proof.
  unfold endswith. rewrite rev_app_distr. simpl. now rewrite N.eqb_refl.
Qed.

Lemma unescape_stage_quoted (getcode : bytes -> option char) (j : str) :
  is_ascii j = true -> ~ In 92 j -> In 34 j ->
  unescape_stage getcode (quoted j) = j.
Proof.
  intros Ha Hs Hq. unfold unescape_stage.
  assert (Hm : escape_markers (quoted j) = true).
  { unfold escape_markers.
    assert (H : contains (quoted j) [92; 34] = true).
    { unfold quoted. apply (contains_skip [34]).
      apply contains_app. pose proof (escaped_quote j Hq) as H.
      apply contains_app in H. destruct H as [a [b ->]].
      exists a, (b ++ [34]). now rewrite <- !app_assoc. }
    now rewrite H. }
  rewrite Hm, unescape_quoted by assumption.
  change (startswith (34 :: j ++ [34]) [34]) with true.
  change (34 :: j ++ [34]) with ((34 :: j) ++ [34]) at 1.
  rewrite endswith_last. cbn [andb]. apply slice_quoted.
Qed.

Lemma strip_fence_quoted (j : str) :
  ~ In 96 j -> strip_fence (quoted j) = quoted j.
Proof.
  intros H. rewrite strip_fence_plain.
  - unfold quoted. now apply strip_trimmed.
  - destruct (contains (quoted j) [96; 96; 96]) eqn:E; [|reflexivity].
    exfalso.
    assert (Hin : In 96 (quoted j)).
    { apply (contains_In _ [96; 96; 96]); [assumption | now left]. }
    unfold quoted in Hin. destruct Hin as [Hin|Hin]; [discriminate|].
    apply in_app_or in Hin. destruct Hin as [Hin|[Hin|[]]]; [|discriminate].
    apply escaped_In in Hin. destruct Hin as [Hin|[Hin|Hin]];
      [now apply H | discriminate | discriminate].
Qed.

(** X27.  A payload that arrives as a quoted string, with a backslash
    before every double quote and backslash n for every newline, is
    unquoted and unescaped in one pass, and the function gives for it
    exactly what it gives for the bare payload.  The payload is ASCII,
    trimmed, holds a double quote and no backslash or backtick. *)
Theorem quoted_escaped_payload (getcode : bytes -> option char)
  (charref_sub : str -> option str) (j : str)
  (Hascii : is_ascii j = true) (Hslash : ~ In 92 j) (Htick : ~ In 96 j)
  (Hquote : In 34 j) (Htrim : strip j = j) :
  unescape_stage getcode (strip_fence (quoted j)) = j /\
  clean_model_text_and_extract_json getcode charref_sub (PStr (quoted j))
  = clean_model_text_and_extract_json getcode charref_sub (PStr j).
Proof.
  assert (H : unescape_stage getcode (strip_fence (quoted j)) = j).
  { rewrite strip_fence_quoted by assumption.
    now apply unescape_stage_quoted. }
  split; [exact H|].
  assert (Hj : unescape_stage getcode (strip_fence j) = j).
  { rewrite strip_fence_plain.
    - rewrite Htrim. apply unescape_stage_no_backslash.
      now apply contains_single_false.
    - destruct (contains j [96; 96; 96]) eqn:E; [|reflexivity].
      exfalso. apply Htick.
      apply (contains_In j [96; 96; 96]); [assumption | now left]. }
  destruct j as [|c j0]; [destruct Hquote|].
  unfold clean_model_text_and_extract_json.
  change (quoted (c :: j0)) with (34 :: escaped (c :: j0) ++ [34]) in *.
  now rewrite H, Hj.
Qed.

Lemma quoted_escaped_payload_witness :
  quoted (qlit "{'allowed': true}") = qlit "'{\'allowed\': true}'" /\
  clean_model_text_and_extract_json (fun _ => None) (fun _ => None)
    (PStr (quoted (qlit "{'allowed': true}")))
  = clean_model_text_and_extract_json (fun _ => None) (fun _ => None)
      (PStr (qlit "{'allowed': true}")).
Proof.
  split; [reflexivity|].
  apply (quoted_escaped_payload (fun _ => None) (fun _ => None)
           (qlit "{'allowed': true}")).
  - reflexivity.
  - vm_compute. intuition discriminate.
  - vm_compute. intuition discriminate.
  - vm_compute. tauto.
  - reflexivity.
Defined.
